(** * voxelmorph.tensorflow_backend.model_io

    A shallow embedding of [model_io.py]: the [store_config_args]
    decorator and the [LoadableModel] base class, together with the part
    of Python's object and call model that the file relies on (instance
    attributes, dictionaries held by reference, binding of positional and
    keyword arguments to a signature, exceptions). *)

From stdpp Require Import strings gmap list fin_maps.
From Stdlib Require Import ZArith.

Local Open Scope string_scope.
Local Open Scope list_scope.
Local Open Scope nat_scope.
Local Open Scope stdpp_scope.
Set Warnings "-register-all".

(** ** Python values, objects and exceptions *)

Abbreviation loc := nat.

(** Immediate values are carried by value; a [VRef] points to a mutable
    object of the heap.  [VList] and [VDict] are the containers that
    [json.loads] hands back; they are never mutated by this file, so
    they are kept by value. *)
Inductive val :=
| VNone
| VBool (b : bool)
| VInt (n : Z)
| VStr (s : string)
| VList (xs : list val)
| VDict (items : list (string * val))
| VRef (l : loc).

(** The mutable objects of the file: the dictionary created by [{}] in
    the wrapper, and instances with their attribute table. *)
Inductive object :=
| ODict (d : gmap string val)
| OInst (cls : string) (fields : gmap string val).

Abbreviation heap := (list object).

Inductive exn :=
| TypeError (msg : string)
| AttributeError (name : string)
| KeyError (key : string)
| RuntimeError (msg : string)
| OSError (msg : string)
| ValueError (msg : string)
| IndexError (msg : string).

Inductive result (A : Type) :=
| Ok (a : A)
| Raise (e : exn).
Arguments Ok {A} a.
Arguments Raise {A} e.

(** ** Computations: state passing with exceptions

    A raised exception keeps the state reached so far, as in Python. *)

Definition M (S A : Type) : Type := S → result A * S.

Definition ret {S A} (a : A) : M S A := λ s, (Ok a, s).
Definition raise {S A} (e : exn) : M S A := λ s, (Raise e, s).
Definition bind {S A B} (m : M S A) (k : A → M S B) : M S B :=
  λ s, match m s with
       | (Ok a, s') => k a s'
       | (Raise e, s') => (Raise e, s')
       end.
Definition of_result {S A} (r : result A) : M S A := λ s, (r, s).

Declare Scope py_scope.
Delimit Scope py_scope with py.
Notation "x <- m ;; k" := (bind m (λ x, k))
  (at level 100, m at next level, right associativity) : py_scope.
Notation "m ;;; k" := (bind m (λ _, k))
  (at level 100, right associativity) : py_scope.
Local Open Scope py_scope.

(** [for x in xs: body x] *)
Fixpoint for_each {S A} (xs : list A) (body : A → M S unit) : M S unit :=
  match xs with
  | [] => ret tt
  | x :: xs' => body x ;;; for_each xs' body
  end.

(** ** Heap primitives *)

(** A new object gets the next free location. *)
Definition alloc (o : object) : M heap loc :=
  λ h, (Ok (length h), h ++ [o]).

(** [hasattr(o, name)] looks in the attribute table of an instance;
    everything else modelled here carries no user attributes.  Class
    level attributes are not modelled: neither [LoadableModel] nor the
    classes below define [config] on the class. *)
Definition hasattr (o : val) (name : string) : M heap bool :=
  λ h, match o with
       | VRef l =>
           match h !! l with
           | Some (OInst _ fs) => (Ok (bool_decide (is_Some (fs !! name))), h)
           | _ => (Ok false, h)
           end
       | _ => (Ok false, h)
       end.

(** [o.name] *)
Definition getattr (o : val) (name : string) : M heap val :=
  λ h, match o with
       | VRef l =>
           match h !! l with
           | Some (OInst _ fs) =>
               match fs !! name with
               | Some v => (Ok v, h)
               | None => (Raise (AttributeError name), h)
               end
           | _ => (Raise (AttributeError name), h)
           end
       | _ => (Raise (AttributeError name), h)
       end.

(** [o.name = v] *)
Definition setattr (o : val) (name : string) (v : val) : M heap unit :=
  λ h, match o with
       | VRef l =>
           match h !! l with
           | Some (OInst c fs) => (Ok tt, <[l := OInst c (<[name := v]> fs)]> h)
           | _ => (Raise (AttributeError name), h)
           end
       | _ => (Raise (AttributeError name), h)
       end.

(** [d[k] = v] on a dictionary object *)
Definition setitem (d : val) (k : string) (v : val) : M heap unit :=
  λ h, match d with
       | VRef l =>
           match h !! l with
           | Some (ODict m) => (Ok tt, <[l := ODict (<[k := v]> m)]> h)
           | _ => (Raise (TypeError "object does not support item assignment"), h)
           end
       | _ => (Raise (TypeError "object does not support item assignment"), h)
       end.

(** [d[k]] on the values that [load] subscripts *)
Definition getitem (d : val) (k : string) : M heap val :=
  λ h, match d with
       | VDict items =>
           match (list_to_map items : gmap string val) !! k with
           | Some v => (Ok v, h)
           | None => (Raise (KeyError k), h)
           end
       | VRef l =>
           match h !! l with
           | Some (ODict m) =>
               match m !! k with
               | Some v => (Ok v, h)
               | None => (Raise (KeyError k), h)
               end
           | _ => (Raise (TypeError "object is not subscriptable"), h)
           end
       | _ => (Raise (TypeError "object is not subscriptable"), h)
       end.

(** [**d]: the keyword arguments a mapping unpacks to *)
Definition unpack_mapping (d : val) : M heap (gmap string val) :=
  λ h, match d with
       | VDict items => (Ok (list_to_map items), h)
       | VRef l =>
           match h !! l with
           | Some (ODict m) => (Ok m, h)
           | _ => (Raise (TypeError "argument after ** must be a mapping"), h)
           end
       | _ => (Raise (TypeError "argument after ** must be a mapping"), h)
       end.

(** ** Signatures and the binding of call arguments

    [ArgSpec] is the 4-tuple that [inspect.getargspec] returns; the
    field names are the local names the decorator unpacks it into. *)
Record ArgSpec := {
  attrs : list string;
  varargs : option string;
  varkw : option string;
  defaults : option (list val)
}.

(** What a function body sees once Python has bound a call to its
    signature: the named parameters, the surplus positional arguments
    ([*args]) and the surplus keyword arguments ([**kwargs]). *)
Record bound := {
  b_named : gmap string val;
  b_varargs : list val;
  b_varkw : gmap string val
}.

(** The default of the [i]-th named parameter: defaults belong to the
    trailing parameters. *)
Definition default_of (sig : ArgSpec) (i : nat) : option val :=
  match defaults sig with
  | None => None
  | Some ds =>
      let first := length (attrs sig) - length ds in
      if decide (first ≤ i) then ds !! (i - first) else None
  end.

(** Python's rule for one named parameter: positional argument, else
    keyword argument, else default; both at once or none is a
    [TypeError]. *)
Definition bind_param (sig : ArgSpec) (pos : list val)
    (kw : gmap string val) (i : nat) (p : string) : result val :=
  match pos !! i, kw !! p with
  | Some _, Some _ => Raise (TypeError "got multiple values for argument")
  | Some v, None => Ok v
  | None, Some v => Ok v
  | None, None =>
      match default_of sig i with
      | Some d => Ok d
      | None => Raise (TypeError "missing required argument")
      end
  end.

Fixpoint collect {A} (rs : list (result A)) : result (list A) :=
  match rs with
  | [] => Ok []
  | Ok a :: rs' =>
      match collect rs' with
      | Ok l => Ok (a :: l)
      | Raise e => Raise e
      end
  | Raise e :: _ => Raise e
  end.

Definition surplus_kw (sig : ArgSpec) (kw : gmap string val) : gmap string val :=
  filter (λ kv, kv.1 ∉ attrs sig) kw.

Definition bind_args (sig : ArgSpec) (pos : list val) (kw : gmap string val)
    : result bound :=
  if decide (length (attrs sig) < length pos ∧ varargs sig = None) then
    Raise (TypeError "too many positional arguments")
  else if decide (varkw sig = None ∧ surplus_kw sig kw ≠ ∅) then
    Raise (TypeError "got an unexpected keyword argument")
  else
    match collect (imap (bind_param sig pos kw) (attrs sig)) with
    | Raise e => Raise e
    | Ok vs =>
        Ok {| b_named := list_to_map (zip (attrs sig) vs);
              b_varargs := drop (length (attrs sig)) pos;
              b_varkw := surplus_kw sig kw |}
    end.

(** ** Callables

    A function written in Python has a signature and a body.  [Native]
    stands for the callables that expose no signature to [inspect]
    (extension callables, some builtins). *)
Inductive callable :=
| PyDef (sig : ArgSpec) (body : bound → M heap val)
| Native (impl : list val → gmap string val → M heap val).

Definition call (f : callable) (pos : list val) (kw : gmap string val)
    : M heap val :=
  match f with
  | PyDef sig body =>
      match bind_args sig pos kw with
      | Ok b => body b
      | Raise e => raise e
      end
  | Native impl => impl pos kw
  end.

(** [inspect.getargspec], by its contract: the signature of a Python
    function, a [TypeError] for a callable it cannot inspect.  (Its
    [ValueError] for keyword-only parameters and annotations has no
    counterpart here: [ArgSpec] cannot express such signatures.) *)
Definition getargspec (f : callable) : result ArgSpec :=
  match f with
  | PyDef sig _ => Ok sig
  | Native _ => Raise (TypeError "unsupported callable")
  end.

(** The value of a named parameter inside a body. *)
Definition param (b : bound) (name : string) : val :=
  default VNone (b_named b !! name).

(** ** Classes and instantiation: calling a class with positional and
    keyword arguments *)
Record pyclass := {
  cls_name : string;
  cls_init : callable
}.

Definition instantiate (cls : pyclass) (args : list val)
    (kwargs : gmap string val) : M heap val :=
  self <- alloc (OInst (cls_name cls) ∅) ;;
  r <- call (cls_init cls) (VRef self :: args) kwargs ;;
  match r with
  | VNone => ret (VRef self)
  | _ => raise (TypeError "__init__() should return None")
  end.

(** ** The decorator [store_config_args] *)

(** Lines 19 to 33 of the wrapper: [self.config[attr] = val] reads the
    attribute again at every assignment. *)
Definition config_setitem (self : val) (kv : string * val) : M heap unit :=
  c <- getattr self "config" ;;
  setitem c kv.1 kv.2.

Definition store_config (spec : ArgSpec) (self : val) (args : list val)
    (kwargs : gmap string val) : M heap unit :=
  d <- alloc (ODict ∅) ;;
  setattr self "config" (VRef d) ;;;
  (* first save the default values *)
  match defaults spec with
  | Some ((_ :: _) as ds) =>
      for_each (zip (reverse (attrs spec)) (reverse ds)) (config_setitem self)
  | _ => ret tt
  end ;;;
  (* next handle positional args *)
  for_each (zip (tail (attrs spec)) args) (config_setitem self) ;;;
  (* lastly handle keyword args *)
  if decide (kwargs = ∅) then ret tt
  else for_each (map_to_list kwargs) (config_setitem self).

Definition wrapper (spec : ArgSpec) (func : callable) (self : val)
    (args : list val) (kwargs : gmap string val) : M heap val :=
  store_config spec self args kwargs ;;;
  call func (self :: args) kwargs.

(** The wrapper's own signature: [self], then [*args] and [**kwargs].
    Python binds a call of the decorated function to this signature
    before the wrapper's body runs, so a keyword argument called [self]
    next to a positional instance is refused there and never reaches
    the body. *)
Definition wrapper_sig : ArgSpec :=
  {| attrs := ["self"]; varargs := Some "args"; varkw := Some "kwargs";
     defaults := None |}.

Definition store_config_args (func : callable) : result callable :=
  match getargspec func with
  | Raise e => Raise e
  | Ok spec =>
      Ok (PyDef wrapper_sig
            (λ b, wrapper spec func (param b "self") (b_varargs b) (b_varkw b)))
  end.

(** ** The outside world of [load]: container files and a record of the
    calls that leave this module *)

(** What a path holds: something [h5py] cannot open, or a container
    with its top-level attributes (byte strings). *)
Inductive entry :=
| Unreadable
| Container (h5attrs : gmap string (list Byte.byte)).

Inductive event :=
| EvOpen (path mode : string)
| EvGetAttr (path name : string)
| EvClose (path : string)
| EvConstruct (cls : string) (config : val)
| EvLoadWeights (model : val) (path : string) (by_name : bool).

Record world := {
  w_heap : heap;
  w_disk : gmap string entry;
  w_open : list string;
  w_log : list event
}.

Definition lift {A} (m : M heap A) : M world A :=
  λ w, let (r, h') := m (w_heap w) in
       (r, {| w_heap := h'; w_disk := w_disk w; w_open := w_open w;
              w_log := w_log w |}).

Definition emit (e : event) : M world unit :=
  λ w, (Ok tt, {| w_heap := w_heap w; w_disk := w_disk w; w_open := w_open w;
                  w_log := w_log w ++ [e] |}).

Fixpoint remove_first (x : string) (l : list string) : list string :=
  match l with
  | [] => []
  | y :: l' => if decide (x = y) then l' else y :: remove_first x l'
  end.

(** [h5py.File(path, mode)] *)
Definition h5_open (path mode : string) : M world string :=
  emit (EvOpen path mode) ;;;
  λ w, match w_disk w !! path with
       | Some (Container _) =>
           (Ok path, {| w_heap := w_heap w; w_disk := w_disk w;
                        w_open := path :: w_open w; w_log := w_log w |})
       | Some Unreadable => (Raise (OSError "Unable to open file"), w)
       | None => (Raise (OSError "No such file or directory"), w)
       end.

(** [f.attrs[name]] *)
Definition h5_attr (f name : string) : M world (list Byte.byte) :=
  emit (EvGetAttr f name) ;;;
  λ w, if decide (f ∈ w_open w) then
         match w_disk w !! f with
         | Some (Container a) =>
             match a !! name with
             | Some raw => (Ok raw, w)
             | None => (Raise (KeyError name), w)
             end
         | _ => (Raise (OSError "Unable to read attribute"), w)
         end
       else (Raise (ValueError "Not a file (file is closed)"), w).

Definition h5_close (f : string) : M world unit :=
  emit (EvClose f) ;;;
  λ w, (Ok tt, {| w_heap := w_heap w; w_disk := w_disk w;
                  w_open := remove_first f (w_open w); w_log := w_log w |}).

(** [with h5py.File(path, mode) as f: body f]: the file is closed on
    the way out whether the body returns or raises. *)
Definition with_h5file {A} (path mode : string) (body : string → M world A)
    : M world A :=
  f <- h5_open path mode ;;
  λ w, let (r, w1) := body f w in
       let (_, w2) := h5_close f w1 in
       (r, w2).

(** ** The base class [LoadableModel] *)

Section LoadableModel.

(** The collaborators outside this repository: the [utf-8] codec, the
    JSON parser, and the two entry points of [keras.Model] that the
    class reaches. *)
Variable utf8_decode : list Byte.byte → result string.
Variable json_loads : string → result val.
Variable keras_Model_init : val → list val → gmap string val → M heap val.
Variable keras_load_weights : val → string → bool → M heap val.

Definition config_error : exn :=
  RuntimeError "models that inherit from LoadableModel must decorate the constructor with @store_config_args".

(** [__init__] with parameters [self], [*args] and [**kwargs] *)
Definition LoadableModel_init (self : val) (args : list val)
    (kwargs : gmap string val) : M heap val :=
  has <- hasattr self "config" ;;
  if negb has then raise config_error
  else keras_Model_init self args kwargs ;;; ret VNone.

Definition get_config (self : val) : M heap val :=
  getattr self "config".

Definition from_config (cls : pyclass) (config : val) (custom_objects : val)
    : M heap val :=
  kwargs <- unpack_mapping config ;;
  instantiate cls [] kwargs.

(** The call of [cls] on the unpacked [config], as [load] performs it:
    Python unpacks the mapping first and calls the class only when that
    has succeeded, so the call is recorded between the two. *)
Definition construct (cls : pyclass) (config : val) : M world val :=
  kwargs <- lift (unpack_mapping config) ;;
  emit (EvConstruct (cls_name cls) config) ;;;
  lift (instantiate cls [] kwargs).

(** [model.load_weights(path, by_name=by_name)] *)
Definition load_weights (model : val) (path : string) (by_name : bool)
    : M world val :=
  emit (EvLoadWeights model path by_name) ;;;
  lift (keras_load_weights model path by_name).

Definition read_config (f : string) : M world val :=
  raw <- h5_attr f "model_config" ;;
  text <- of_result (utf8_decode raw) ;;
  parsed <- of_result (json_loads text) ;;
  lift (getitem parsed "config").

Definition load (cls : pyclass) (path : string) (by_name : bool)
    : M world val :=
  config <- with_h5file path "r" read_config ;;
  model <- construct cls config ;;
  load_weights model path by_name ;;;
  ret model.

(** [load] as the specification words it: the instance is built by the
    reconstruction factory from the extracted configuration.  The call
    of the class is recorded where it happens, once the mapping is
    known to unpack; the instance is the factory's. *)
Definition construct_via_factory (cls : pyclass) (config : val) : M world val :=
  lift (unpack_mapping config) ;;;
  emit (EvConstruct (cls_name cls) config) ;;;
  lift (from_config cls config VNone).

Definition load_via_factory (cls : pyclass) (path : string) (by_name : bool)
    : M world val :=
  config <- with_h5file path "r" read_config ;;
  model <- construct_via_factory cls config ;;
  load_weights model path by_name ;;;
  ret model.

End LoadableModel.

(** ** The mapping the wrapper records, as a function of the call

    [update_all items c] is [c] after [c[k] = v] for every [(k, v)] of
    [items] in order.  [recorded] composes the three passes. *)
Definition update_all (items : list (string * val)) (c : gmap string val)
    : gmap string val :=
  foldl (λ c kv, <[kv.1 := kv.2]> c) c items.

Definition default_items (spec : ArgSpec) : list (string * val) :=
  match defaults spec with
  | Some ds => zip (reverse (attrs spec)) (reverse ds)
  | None => []
  end.

Definition recorded (spec : ArgSpec) (args : list val)
    (kwargs : gmap string val) : gmap string val :=
  update_all (map_to_list kwargs)
    (update_all (zip (tail (attrs spec)) args)
       (update_all (default_items spec) ∅)).

(** The heap once the wrapper has recorded the configuration of a call
    on the instance at [self]. *)
Definition with_config (self : loc) (cfg : gmap string val) (h : heap) : heap :=
  match h !! self with
  | Some (OInst c fs) =>
      <[self := OInst c (<["config" := VRef (length h)]> fs)]> (h ++ [ODict cfg])
  | _ => h
  end.

(** A signature as Python builds them: parameter names are pairwise
    distinct and there are no more defaults than parameters. *)
Definition wf_spec (spec : ArgSpec) : Prop :=
  NoDup (attrs spec) ∧
  match defaults spec with
  | Some ds => length ds ≤ length (attrs spec)
  | None => True
  end.

(** The world after some calls: the files on disk and the set of open
    files are as before, the heap is [h], the record of calls has grown
    by [evs]. *)
Definition advance (w : world) (h : heap) (evs : list event) : world :=
  {| w_heap := h; w_disk := w_disk w; w_open := w_open w;
     w_log := w_log w ++ evs |}.

(** The record of the construction step: the class is called only if
    the configuration unpacks as a mapping. *)
Definition construct_log (cls : pyclass) (config : val) (h : heap)
    : list event :=
  match unpack_mapping config h with
  | (Ok _, _) => [EvConstruct (cls_name cls) config]
  | (Raise _, _) => []
  end.

(** The calls of the scoped read of the metadata. *)
Definition file_phase (path : string) : list event :=
  [EvOpen path "r"; EvGetAttr path "model_config"; EvClose path].

Section Metadata.

Variable utf8_decode : list Byte.byte → result string.
Variable json_loads : string → result val.

(** What the body of the [with] block evaluates to on a container with
    attributes [a]. *)
Definition parse_config (a : gmap string (list Byte.byte)) (h : heap)
    : result val :=
  match a !! "model_config" with
  | None => Raise (KeyError "model_config")
  | Some raw =>
      match utf8_decode raw with
      | Raise e => Raise e
      | Ok text =>
          match json_loads text with
          | Raise e => Raise e
          | Ok parsed => (getitem parsed "config" h).1
          end
      end
  end.

End Metadata.

(** The instance at [self] is of class [cname] and its [config]
    attribute points to a dictionary with content [cfg]. *)
Definition inst_of (h : heap) (self : loc) (cname : string)
    (cfg : gmap string val) : Prop :=
  ∃ fs l, h !! self = Some (OInst cname fs) ∧
          fs !! "config" = Some (VRef l) ∧
          h !! l = Some (ODict cfg).

(** A constructor body that leaves recorded configurations alone. *)
Definition keeps_config (body : bound → M heap val) : Prop :=
  ∀ b (h h' : heap) v self cname cfg,
    body b h = (Ok v, h') → inst_of h self cname cfg → inst_of h' self cname cfg.

(** [b'] is what the constructor receives when the call that gave [b]
    is rebuilt from its recorded mapping: the same named parameters
    (the instance parameter [p0] aside) and the same surplus keywords,
    but no surplus positional arguments, since those are not recorded. *)
Definition rebuilt_args (p0 : string) (b b' : bound) : Prop :=
  (∀ p, p ≠ p0 → b_named b !! p = b_named b' !! p) ∧
  b_varargs b' = [] ∧
  b_varkw b = b_varkw b'.

(** A constructor body whose success is decided by its named and
    keyword arguments: once it has built an instance from some
    arguments, it builds one again from the rebuilt arguments on any
    instance that carries a recorded configuration. *)
Definition repeatable (p0 : string) (body : bound → M heap val) : Prop :=
  ∀ b b' (h h1 h' : heap) self' cname cfg,
    body b h = (Ok VNone, h1) →
    rebuilt_args p0 b b' →
    b_named b' !! p0 = Some (VRef self') →
    inst_of h' self' cname cfg →
    ∃ h1', body b' h' = (Ok VNone, h1').

(** A constructor body that neither rebinds [self.config] nor changes
    the dictionary it points to, on any instance. *)
Definition leaves_config_alone (body : bound → M heap val) : Prop :=
  ∀ b (h h' : heap) v self c fs l d,
    body b h = (Ok v, h') →
    h !! self = Some (OInst c fs) →
    fs !! "config" = Some (VRef l) →
    h !! l = Some (ODict d) →
    ∃ fs', h' !! self = Some (OInst c fs') ∧
           fs' !! "config" = Some (VRef l) ∧
           h' !! l = Some (ODict d).

(** [load_weights] leaves recorded configurations alone. *)
Definition weights_keep_config
    (keras_load_weights : val → string → bool → M heap val) : Prop :=
  ∀ model path by_name (h h' : heap) v self cname cfg,
    keras_load_weights model path by_name h = (Ok v, h') →
    inst_of h self cname cfg → inst_of h' self cname cfg.

(** The decorator applied to a function the examples know to be
    inspectable. *)
Definition decorate (func : callable) : callable :=
  match store_config_args func with
  | Ok wrapped => wrapped
  | Raise _ => func
  end.

(** The class whose [__init__] is [body] with signature [spec],
    decorated. *)
Definition decorated_class (name : string) (spec : ArgSpec)
    (body : bound → M heap val) : pyclass :=
  {| cls_name := name; cls_init := decorate (PyDef spec body) |}.

(** ** Example classes *)

(** A [keras.Model.__init__] that accepts every call. *)
Definition keras_init_ok : val → list val → gmap string val → M heap val :=
  λ _ _ _, ret VNone.

(** [def __init__(self, filters, depth=4, name='net'): super().__init__()] *)
Definition net_spec : ArgSpec :=
  {| attrs := ["self"; "filters"; "depth"; "name"]; varargs := None;
     varkw := None; defaults := Some [VInt 4; VStr "net"] |}.

Definition net_body (b : bound) : M heap val :=
  LoadableModel_init keras_init_ok (param b "self") [] ∅.

Definition net_init : callable := PyDef net_spec net_body.

(** [def __init__(self=None, depth=4)]: every parameter has a default,
    the instance parameter too. *)
Definition odd_spec : ArgSpec :=
  {| attrs := ["self"; "depth"]; varargs := None; varkw := None;
     defaults := Some [VNone; VInt 4] |}.

Definition net_cls : pyclass :=
  {| cls_name := "Net"; cls_init := decorate net_init |}.

(** A world with one container file whose metadata decodes and parses
    to the configuration [{'filters': 32}]. *)
Definition demo_world : world :=
  {| w_heap := [];
     w_disk := {["model.h5" := Container {["model_config" := []]};
                "notes.txt" := Unreadable]};
     w_open := []; w_log := [] |}.

Definition demo_decode : list Byte.byte → result string :=
  λ _, Ok "{'class_name': 'Net', 'config': {'filters': 32}}".

Definition demo_parse : string → result val :=
  λ _, Ok (VDict [("class_name", VStr "Net");
                  ("config", VDict [("filters", VInt 32)])]).

Definition demo_load_weights : val → string → bool → M heap val :=
  λ _ _ _, ret VNone.

(** [def __init__(self, *layers): super().__init__(); self.first = layers[0]] *)
Definition stack_spec : ArgSpec :=
  {| attrs := ["self"]; varargs := Some "layers"; varkw := None;
     defaults := None |}.

Definition stack_body (b : bound) : M heap val :=
  LoadableModel_init keras_init_ok (param b "self") [] ∅ ;;;
  match b_varargs b with
  | first :: _ => setattr (param b "self") "first" first ;;; ret VNone
  | [] => raise (IndexError "tuple index out of range")
  end.

Definition stack_cls : pyclass := decorated_class "Stack" stack_spec stack_body.

(** ** Further notions used below *)

(** [cfg] is the content of the dictionary that the wrapper's recording
    steps leave under [self.config] when run on heap [h]. *)
Definition records (spec : ArgSpec) (self : loc) (args : list val)
    (kwargs : gmap string val) (h : heap) (cfg : gmap string val) : Prop :=
  ∃ h' l, store_config spec (VRef self) args kwargs h = (Ok tt, h') ∧
          getattr (VRef self) "config" h' = (Ok (VRef l), h') ∧
          h' !! l = Some (ODict cfg).

(** The signature of [LoadableModel.__init__]: [self], [*args],
    [**kwargs]. *)
Definition base_init_sig : ArgSpec :=
  {| attrs := ["self"]; varargs := Some "args"; varkw := Some "kwargs";
     defaults := None |}.

(** [LoadableModel.__init__] as the callable a class holds. *)
Definition LoadableModel_init_def
    (keras_Model_init : val → list val → gmap string val → M heap val)
    : callable :=
  PyDef base_init_sig
    (λ b, LoadableModel_init keras_Model_init (param b "self")
            (b_varargs b) (b_varkw b)).

(** A subclass that defines no [__init__] of its own (and, like every
    class modelled here, no attribute [config] at class level). *)
Definition inheriting_class (name : string)
    (keras_Model_init : val → list val → gmap string val → M heap val)
    : pyclass :=
  {| cls_name := name; cls_init := LoadableModel_init_def keras_Model_init |}.

(** The values that [**] refuses to unpack. *)
Definition not_mapping (v : val) : Prop :=
  match v with
  | VDict _ | VRef _ => False
  | _ => True
  end.

(** [def __init__(this, **kw): pass] *)
Definition this_spec : ArgSpec :=
  {| attrs := ["this"]; varargs := None; varkw := Some "kw";
     defaults := None |}.

Definition this_init : callable := PyDef this_spec (λ _, ret VNone).

(** [def __init__(self, units): super().__init__(); self.config['built'] = True] *)
Definition marking_spec : ArgSpec :=
  {| attrs := ["self"; "units"]; varargs := None; varkw := None;
     defaults := None |}.

Definition marking_body (b : bound) : M heap val :=
  LoadableModel_init keras_init_ok (param b "self") [] ∅ ;;;
  config_setitem (param b "self") ("built", VBool true) ;;;
  ret VNone.

(** [def __init__(self, units, **extra): super().__init__()] *)
Definition flex_spec : ArgSpec :=
  {| attrs := ["self"; "units"]; varargs := None; varkw := Some "extra";
     defaults := None |}.

(** ** The model on concrete calls *)

Example net_call_binds :
  bind_args net_spec [VRef 0; VInt 32] {["name" := VStr "x"]}
  = Ok {| b_named := {["self" := VRef 0; "filters" := VInt 32;
                       "depth" := VInt 4; "name" := VStr "x"]};
          b_varargs := []; b_varkw := ∅ |}.
Proof. vm_compute. reflexivity. Qed.

Example net_call_twice_bound :
  bind_args net_spec [VRef 0; VInt 32] {["filters" := VInt 8]}
  = Raise (TypeError "got multiple values for argument").
Proof. vm_compute. reflexivity. Qed.

Example net_call_missing_argument :
  bind_args net_spec [VRef 0] ∅ = Raise (TypeError "missing required argument").
Proof. vm_compute. reflexivity. Qed.

Example net_call_surplus_positional :
  bind_args net_spec [VRef 0; VInt 1; VInt 2; VStr "n"; VNone] ∅
  = Raise (TypeError "too many positional arguments").
Proof. vm_compute. reflexivity. Qed.

Example net_instance :
  instantiate net_cls [VInt 32; VInt 5] ∅ []
  = (Ok (VRef 0),
     [OInst "Net" {["config" := VRef 1]};
      ODict {["filters" := VInt 32; "depth" := VInt 5; "name" := VStr "net"]}]).
Proof. vm_compute. reflexivity. Qed.

Example net_instance_self_keyword :
  instantiate net_cls [VInt 32] {["self" := VNone]} []
  = (Raise (TypeError "got multiple values for argument"), [OInst "Net" ∅]).
Proof. vm_compute. reflexivity. Qed.

Example undecorated_instance :
  instantiate {| cls_name := "Net"; cls_init := net_init |} [VInt 32] ∅ []
  = (Raise config_error, [OInst "Net" ∅]).
Proof. vm_compute. reflexivity. Qed.

Example load_without_metadata :
  load demo_decode demo_parse demo_load_weights net_cls "empty.h5" false
    {| w_heap := []; w_disk := {["empty.h5" := Container ∅]};
       w_open := []; w_log := [] |}
  = (Raise (KeyError "model_config"),
     {| w_heap := []; w_disk := {["empty.h5" := Container ∅]};
        w_open := [];
        w_log := [EvOpen "empty.h5" "r"; EvGetAttr "empty.h5" "model_config";
                  EvClose "empty.h5"] |}).
Proof. vm_compute. reflexivity. Qed.

(** * Properties *)

(** Discharges [wf_spec] on a concrete signature. *)
Ltac solve_wf_spec :=
  split; [by apply (bool_decide_unpack _); vm_compute | simpl; lia].

(** ** Running computations *)

Lemma run_bind {S A B} (m : M S A) (k : A → M S B) s :
  bind m k s = match m s with
               | (Ok a, s') => k a s'
               | (Raise e, s') => (Raise e, s')
               end.
Proof. reflexivity. Qed.

Lemma run_bind_ok {S A B} (m : M S A) (k : A → M S B) s a s' :
  m s = (Ok a, s') → bind m k s = k a s'.
Proof. intros E. unfold bind. by rewrite E. Qed.

Lemma run_bind_raise {S A B} (m : M S A) (k : A → M S B) s e s' :
  m s = (Raise e, s') → bind m k s = (Raise e, s').
Proof. intros E. unfold bind. by rewrite E. Qed.

(** ** Dictionary updates *)

Lemma update_all_cons k v items c :
  update_all ((k, v) :: items) c = update_all items (<[k := v]> c).
Proof. reflexivity. Qed.

Lemma update_all_lookup_notin items : ∀ c k,
  k ∉ items.*1 → update_all items c !! k = c !! k.
Proof.
  induction items as [|[k' v'] items IH]; intros c k Hk; [done|].
  rewrite update_all_cons, IH.
  - apply lookup_insert_ne. intros ->. apply Hk. simpl. left.
  - intros Hin. apply Hk. simpl. by right.
Qed.

Lemma update_all_lookup_in items : ∀ c k v,
  NoDup items.*1 → (k, v) ∈ items → update_all items c !! k = Some v.
Proof.
  induction items as [|[k' v'] items IH]; intros c k v Hnd Hin.
  - by apply elem_of_nil in Hin.
  - rewrite update_all_cons. simpl in Hnd. apply NoDup_cons in Hnd as [Hk' Hnd].
    apply elem_of_cons in Hin as [Heq|Hin].
    + injection Heq as -> ->.
      rewrite update_all_lookup_notin by done. apply lookup_insert_eq.
    + by apply IH.
Qed.

Lemma for_each_cons {S A} (x : A) xs (body : A → M S unit) :
  for_each (x :: xs) body = bind (body x) (λ _, for_each xs body).
Proof. reflexivity. Qed.

(** ** What the wrapper leaves on the heap *)

Lemma for_each_config_setitem (self l : loc) c fs items : ∀ m (h : heap),
  self ≠ l →
  h !! self = Some (OInst c fs) →
  fs !! "config" = Some (VRef l) →
  h !! l = Some (ODict m) →
  for_each items (config_setitem (VRef self)) h
  = (Ok tt, <[l := ODict (update_all items m)]> h).
Proof.
  induction items as [|[k v] items IH]; intros m h Hne Hs Hc Hl.
  - cbn [for_each update_all foldl]. unfold ret. by rewrite list_insert_id.
  - rewrite for_each_cons, update_all_cons.
    assert (Hlt : l < length h) by (by eapply lookup_lt_Some).
    rewrite (run_bind_ok _ _ h tt (<[l := ODict (<[k := v]> m)]> h)).
    + rewrite (IH (<[k := v]> m)); try done.
      * by rewrite list_insert_insert_eq.
      * by rewrite list_lookup_insert_ne.
      * by rewrite list_lookup_insert_eq.
    + unfold config_setitem, bind, getattr, setitem. simpl.
      by rewrite Hs, Hc, Hl.
Qed.

Lemma with_config_inst self cfg (h : heap) c fs :
  h !! self = Some (OInst c fs) →
  with_config self cfg h
  = <[self := OInst c (<["config" := VRef (length h)]> fs)]> (h ++ [ODict cfg]).
Proof. intros Hs. unfold with_config. by rewrite Hs. Qed.

Lemma with_config_self self cfg (h : heap) c fs :
  h !! self = Some (OInst c fs) →
  with_config self cfg h !! self
  = Some (OInst c (<["config" := VRef (length h)]> fs)).
Proof.
  intros Hs. rewrite (with_config_inst _ _ _ _ _ Hs).
  apply list_lookup_insert_eq. rewrite length_app.
  apply lookup_lt_Some in Hs. lia.
Qed.

Lemma with_config_dict self cfg (h : heap) c fs :
  h !! self = Some (OInst c fs) →
  with_config self cfg h !! length h = Some (ODict cfg).
Proof.
  intros Hs. rewrite (with_config_inst _ _ _ _ _ Hs).
  pose proof (lookup_lt_Some _ _ _ Hs).
  rewrite list_lookup_insert_ne by lia.
  by rewrite lookup_app_r, Nat.sub_diag by lia.
Qed.

Lemma with_config_old self cfg (h : heap) l :
  l ≠ self → l < length h → with_config self cfg h !! l = h !! l.
Proof.
  intros Hne Hlt. unfold with_config.
  destruct (h !! self) as [[|c fs]|] eqn:Hs; try done.
  rewrite list_lookup_insert_ne by done. by apply lookup_app_l.
Qed.

Lemma with_config_overwrite self cfg cfg' (h : heap) c fs :
  h !! self = Some (OInst c fs) →
  <[length h := ODict cfg']> (with_config self cfg h) = with_config self cfg' h.
Proof.
  intros Hs. rewrite !(with_config_inst _ _ _ _ _ Hs).
  pose proof (lookup_lt_Some _ _ _ Hs).
  rewrite list_insert_insert_ne by lia. f_equal.
  by rewrite insert_app_r_alt, Nat.sub_diag by lia.
Qed.

Lemma for_each_with_config self items cfg (h : heap) c fs :
  h !! self = Some (OInst c fs) →
  for_each items (config_setitem (VRef self)) (with_config self cfg h)
  = (Ok tt, with_config self (update_all items cfg) h).
Proof.
  intros Hs. pose proof (lookup_lt_Some _ _ _ Hs).
  erewrite (for_each_config_setitem self (length h)).
  - by erewrite with_config_overwrite.
  - lia.
  - by apply with_config_self.
  - apply lookup_insert_eq.
  - by eapply with_config_dict.
Qed.

Lemma store_config_run spec self args kwargs (h : heap) c fs :
  h !! self = Some (OInst c fs) →
  store_config spec (VRef self) args kwargs h
  = (Ok tt, with_config self (recorded spec args kwargs) h).
Proof.
  intros Hs. unfold store_config.
  rewrite (run_bind_ok _ _ h (length h) (h ++ [ODict ∅])) by done.
  rewrite (run_bind_ok _ _ _ tt (with_config self ∅ h)).
  2:{ unfold setattr. rewrite (lookup_app_l_Some _ _ _ _ Hs).
      by rewrite (with_config_inst _ _ _ _ _ Hs). }
  rewrite (run_bind_ok _ _ _ tt
             (with_config self (update_all (default_items spec) ∅) h)).
  2:{ unfold default_items. destruct (defaults spec) as [[|d ds]|]; try done.
      - by rewrite reverse_nil, zip_with_nil_r.
      - by erewrite for_each_with_config. }
  rewrite (run_bind_ok _ _ _ tt
             (with_config self
                (update_all (zip (tail (attrs spec)) args)
                   (update_all (default_items spec) ∅)) h)).
  2:{ by erewrite for_each_with_config. }
  unfold recorded. destruct (decide (kwargs = ∅)) as [->|_].
  - by rewrite map_to_list_empty.
  - by erewrite for_each_with_config.
Qed.

(** ** Looking a parameter up in the recorded mapping *)

Lemma zip_fst_lookup {A} (ks : list string) (vs : list A) k :
  k ∈ (zip ks vs).*1 → ∃ j v, ks !! j = Some k ∧ vs !! j = Some v.
Proof.
  intros Hin. apply list_elem_of_fmap in Hin as [[k' v] [-> Hin]].
  apply list_elem_of_lookup in Hin as [j Hj].
  apply lookup_zip_with_Some in Hj as (x & y & Heq & Hx & Hy).
  injection Heq as -> ->. by exists j, y.
Qed.

Lemma NoDup_zip_fst {A} (ks : list string) (vs : list A) :
  NoDup ks → NoDup (zip ks vs).*1.
Proof.
  intros Hnd. revert vs. induction Hnd as [|k ks Hk Hnd IH]; intros [|v vs];
    try apply NoDup_nil_2.
  cbn. apply NoDup_cons_2; [|apply IH].
  intros (j & w & Hj & _)%zip_fst_lookup.
  apply Hk. by eapply list_elem_of_lookup_2.
Qed.

Lemma update_all_zip_lookup ks vs c j k :
  NoDup ks → ks !! j = Some k →
  update_all (zip ks vs) c !! k
  = match vs !! j with Some v => Some v | None => c !! k end.
Proof.
  intros Hnd Hj. destruct (vs !! j) as [v|] eqn:Hv.
  - apply update_all_lookup_in; [by apply NoDup_zip_fst|].
    apply (list_elem_of_lookup_2 _ j). apply lookup_zip_with_Some. eauto.
  - apply update_all_lookup_notin.
    intros (j' & w & Hj' & Hw)%zip_fst_lookup.
    assert (j = j') as -> by (by eapply NoDup_lookup).
    congruence.
Qed.

Lemma update_all_items_lookup (kw c : gmap string val) k :
  update_all (map_to_list kw) c !! k
  = match kw !! k with Some v => Some v | None => c !! k end.
Proof.
  destruct (kw !! k) as [v|] eqn:Hk.
  - apply update_all_lookup_in; [apply NoDup_fst_map_to_list|].
    by apply elem_of_map_to_list.
  - apply update_all_lookup_notin.
    intros [[k' v] [-> Hin]]%list_elem_of_fmap.
    apply elem_of_map_to_list in Hin. simpl in Hk. congruence.
Qed.

Lemma default_items_lookup spec i p :
  wf_spec spec → attrs spec !! i = Some p →
  update_all (default_items spec) ∅ !! p = default_of spec i.
Proof.
  intros [Hnd Hlen] Hi. unfold default_items, default_of.
  destruct (defaults spec) as [ds|]; [|done].
  pose proof (lookup_lt_Some _ _ _ Hi) as Hlt.
  rewrite (update_all_zip_lookup _ _ _ (length (attrs spec) - S i)).
  - rewrite lookup_empty. case_decide as Hfirst.
    + rewrite reverse_lookup by lia.
      replace (length ds - S (length (attrs spec) - S i))
        with (i - (length (attrs spec) - length ds)) by lia.
      by destruct (ds !! _).
    + rewrite lookup_ge_None_2; [done|]. rewrite length_reverse. lia.
  - by rewrite reverse_Permutation.
  - rewrite reverse_lookup by lia.
    by replace (length (attrs spec) - S (length (attrs spec) - S i)) with i by lia.
Qed.

(** Keywords first, then the positional argument that fills the
    parameter, then its default. *)
Lemma recorded_lookup spec args kwargs i p :
  wf_spec spec → attrs spec !! S i = Some p →
  recorded spec args kwargs !! p
  = match kwargs !! p with
    | Some v => Some v
    | None => match args !! i with
              | Some v => Some v
              | None => default_of spec (S i)
              end
    end.
Proof.
  intros Hwf Hi. unfold recorded. rewrite update_all_items_lookup.
  destruct (kwargs !! p); [done|].
  rewrite (update_all_zip_lookup _ _ _ i).
  - destruct (args !! i); [done|]. by apply default_items_lookup.
  - destruct Hwf as [Hnd _]. destruct (attrs spec); [done|].
    by apply NoDup_cons in Hnd as [_ ?].
  - by rewrite lookup_tail.
Qed.

(** ** Binding a call to a signature *)

Lemma collect_Ok_inv {A} (rs : list (result A)) vs :
  collect rs = Ok vs → rs = Ok <$> vs.
Proof.
  revert vs. induction rs as [|[a|e] rs IH]; intros vs Hc; simpl in Hc.
  - by injection Hc as <-.
  - destruct (collect rs) as [l|]; [|done].
    injection Hc as <-. by rewrite (IH l).
  - done.
Qed.

Lemma collect_fmap_Ok {A} (vs : list A) : collect (Ok <$> vs) = Ok vs.
Proof. induction vs as [|v vs IH]; [done|]. cbn. by rewrite IH. Qed.

Lemma imap_all_Ok {A B} (f : nat → A → result B) (l : list A) :
  (∀ i x, l !! i = Some x → ∃ v, f i x = Ok v) →
  ∃ vs, imap f l = Ok <$> vs.
Proof.
  revert f. induction l as [|x l IH]; intros f Hf.
  - by exists [].
  - destruct (Hf 0 x eq_refl) as [v Hv].
    destruct (IH (f ∘ S)) as [vs Hvs].
    { intros i y Hy. by apply (Hf (S i)). }
    exists (v :: vs). rewrite imap_cons, Hv, Hvs. done.
Qed.

Lemma bind_args_inv spec pos kw b :
  bind_args spec pos kw = Ok b →
  ¬ (length (attrs spec) < length pos ∧ varargs spec = None) ∧
  ¬ (varkw spec = None ∧ surplus_kw spec kw ≠ ∅) ∧
  ∃ vs, imap (bind_param spec pos kw) (attrs spec) = Ok <$> vs ∧
        b = {| b_named := list_to_map (zip (attrs spec) vs);
               b_varargs := drop (length (attrs spec)) pos;
               b_varkw := surplus_kw spec kw |}.
Proof.
  unfold bind_args. intros Hb.
  case_decide as H1; [done|]. case_decide as H2; [done|].
  destruct (collect _) as [vs|] eqn:Hc; [|done].
  injection Hb as <-. repeat split; try done.
  exists vs. split; [by apply collect_Ok_inv|done].
Qed.

Lemma bind_args_intro spec pos kw vs :
  ¬ (length (attrs spec) < length pos ∧ varargs spec = None) →
  ¬ (varkw spec = None ∧ surplus_kw spec kw ≠ ∅) →
  imap (bind_param spec pos kw) (attrs spec) = Ok <$> vs →
  bind_args spec pos kw
  = Ok {| b_named := list_to_map (zip (attrs spec) vs);
          b_varargs := drop (length (attrs spec)) pos;
          b_varkw := surplus_kw spec kw |}.
Proof.
  intros H1 H2 Hvs. unfold bind_args.
  rewrite decide_False by done. rewrite decide_False by done.
  by rewrite Hvs, collect_fmap_Ok.
Qed.

Lemma named_lookup (ks : list string) (vs : list val) i p v :
  NoDup ks → ks !! i = Some p → vs !! i = Some v →
  (list_to_map (zip ks vs) : gmap string val) !! p = Some v.
Proof.
  intros Hnd Hp Hv. apply elem_of_list_to_map_1; [by apply NoDup_zip_fst|].
  apply (list_elem_of_lookup_2 _ i). apply lookup_zip_with_Some. eauto.
Qed.

(** A call that binds gives every named parameter the value that
    [bind_param] computes for it. *)
Lemma bind_args_named spec pos kw b i p :
  NoDup (attrs spec) → bind_args spec pos kw = Ok b →
  attrs spec !! i = Some p →
  ∃ v, bind_param spec pos kw i p = Ok v ∧ b_named b !! p = Some v.
Proof.
  intros Hnd (_ & _ & vs & Hvs & ->)%bind_args_inv Hp.
  assert (Hi : imap (bind_param spec pos kw) (attrs spec) !! i
               = Some (bind_param spec pos kw i p))
    by (by rewrite list_lookup_imap, Hp).
  rewrite Hvs, list_lookup_fmap in Hi.
  destruct (vs !! i) as [v|] eqn:Hv; [|done].
  injection Hi as Hi. exists v. split; [done|]. by eapply named_lookup.
Qed.

Lemma bind_param_positional spec pos kw i p v w :
  bind_param spec pos kw i p = Ok v → pos !! i = Some w →
  v = w ∧ kw !! p = None.
Proof.
  unfold bind_param. intros Hb Hp. rewrite Hp in Hb.
  destruct (kw !! p); [done|]. by injection Hb as ->.
Qed.

Lemma bind_param_rest spec pos kw i p v :
  bind_param spec pos kw i p = Ok v → pos !! i = None →
  match kw !! p with Some w => Some w | None => default_of spec i end = Some v.
Proof.
  unfold bind_param. intros Hb Hp. rewrite Hp in Hb.
  destruct (kw !! p); [congruence|].
  destruct (default_of spec i); congruence.
Qed.

(** C1. For a well-formed signature and a call that binds (a valid
    call), the mapping that the wrapper stores on the instance before it
    runs the constructor gives every parameter after the instance
    parameter the value the constructor receives for it: the keyword
    argument if there is one, else the positional argument that fills
    it, else its default. *)
Theorem recorded_config_is_effective_binding spec body self args kwargs
    (h : heap) c fs b :
  wf_spec spec →
  h !! self = Some (OInst c fs) →
  bind_args spec (VRef self :: args) kwargs = Ok b →
  ∃ h' l cfg,
    store_config spec (VRef self) args kwargs h = (Ok tt, h') ∧
    wrapper spec (PyDef spec body) (VRef self) args kwargs h = body b h' ∧
    getattr (VRef self) "config" h' = (Ok (VRef l), h') ∧
    h' !! l = Some (ODict cfg) ∧
    ∀ i p, attrs spec !! S i = Some p →
      is_Some (cfg !! p) ∧
      cfg !! p = b_named b !! p ∧
      cfg !! p = match kwargs !! p with
                 | Some v => Some v
                 | None => match args !! i with
                           | Some v => Some v
                           | None => default_of spec (S i)
                           end
                 end.
Proof.
  intros Hwf Hs Hb.
  exists (with_config self (recorded spec args kwargs) h), (length h),
    (recorded spec args kwargs).
  pose proof (store_config_run spec self args kwargs h c fs Hs) as Hrun.
  split; [done|]. split.
  { unfold wrapper. rewrite (run_bind_ok _ _ _ _ _ Hrun).
    cbn [call]. by rewrite Hb. }
  split.
  { unfold getattr. rewrite (with_config_self _ _ _ _ _ Hs).
    by rewrite lookup_insert_eq. }
  split; [by eapply with_config_dict|].
  intros i p Hp.
  destruct (bind_args_named spec _ _ b (S i) p (proj1 Hwf) Hb Hp)
    as (v & Hv & Hnamed).
  rewrite (recorded_lookup spec args kwargs i p Hwf Hp).
  assert (Heff : match kwargs !! p with
                 | Some v => Some v
                 | None => match args !! i with
                           | Some v => Some v
                           | None => default_of spec (S i)
                           end
                 end = Some v).
  { destruct (args !! i) as [w|] eqn:Hw.
    - destruct (bind_param_positional _ _ _ _ _ _ w Hv) as [-> ->]; done.
    - pose proof (bind_param_rest _ _ _ _ _ _ Hv) as Hr.
      cbn in Hr. specialize (Hr Hw). by destruct (kwargs !! p). }
  rewrite Heff, Hnamed. eauto.
Qed.

Lemma recorded_config_is_effective_binding_witness :
  ∃ h' l cfg,
    store_config net_spec (VRef 0) [VInt 32] {["name" := VStr "x"]}
      [OInst "Net" ∅] = (Ok tt, h') ∧
    wrapper net_spec net_init (VRef 0) [VInt 32] {["name" := VStr "x"]}
      [OInst "Net" ∅]
    = net_body
        {| b_named := {["self" := VRef 0; "filters" := VInt 32;
                        "depth" := VInt 4; "name" := VStr "x"]};
           b_varargs := []; b_varkw := ∅ |} h' ∧
    getattr (VRef 0) "config" h' = (Ok (VRef l), h') ∧
    h' !! l = Some (ODict cfg) ∧
    ∀ i p, attrs net_spec !! S i = Some p →
      is_Some (cfg !! p) ∧
      cfg !! p = ({["self" := VRef 0; "filters" := VInt 32;
                    "depth" := VInt 4; "name" := VStr "x"]}
                  : gmap string val) !! p ∧
      cfg !! p = match ({["name" := VStr "x"]} : gmap string val) !! p with
                 | Some v => Some v
                 | None => match [VInt 32] !! i with
                           | Some v => Some v
                           | None => default_of net_spec (S i)
                           end
                 end.
Proof.
  refine (recorded_config_is_effective_binding net_spec net_body 0 [VInt 32]
            {["name" := VStr "x"]} [OInst "Net" ∅] "Net" ∅
            {| b_named := {["self" := VRef 0; "filters" := VInt 32;
                            "depth" := VInt 4; "name" := VStr "x"]};
               b_varargs := []; b_varkw := ∅ |} _ _ _).
  - solve_wf_spec.
  - reflexivity.
  - vm_compute. reflexivity.
Defined.

(** C9. When [inspect.getargspec] raises on the function, applying the
    decorator raises the same exception: no wrapper is produced. *)
Theorem decoration_fails_fast func e :
  getargspec func = Raise e →
  store_config_args func = Raise e ∧ ∀ w, store_config_args func ≠ Ok w.
Proof.
  intros Hg. unfold store_config_args. rewrite Hg. split; [done|].
  intros w Hw. discriminate Hw.
Qed.

Lemma decoration_fails_fast_witness :
  store_config_args (Native (λ _ _, ret VNone))
  = Raise (TypeError "unsupported callable") ∧
  ∀ w, store_config_args (Native (λ _ _, ret VNone)) ≠ Ok w.
Proof.
  refine (decoration_fails_fast (Native (λ _ _, ret VNone)) _ _).
  reflexivity.
Defined.

(** C10, as stated, fails: when the instance parameter itself has a
    default, the defaults pass records it.  The call below is a valid
    call of [def __init__(self=None, depth=4)]. *)
Lemma config_can_hold_instance_parameter :
  bind_args odd_spec [VRef 0] ∅
  = Ok {| b_named := {["self" := VRef 0; "depth" := VInt 4]};
          b_varargs := []; b_varkw := ∅ |} ∧
  store_config odd_spec (VRef 0) [] ∅ [OInst "Odd" ∅]
  = (Ok tt, [OInst "Odd" {["config" := VRef 1]};
             ODict {["self" := VNone; "depth" := VInt 4]}]).
Proof. split; vm_compute; reflexivity. Qed.

Lemma recorded_lookup_first spec args kwargs p0 :
  wf_spec spec → attrs spec !! 0 = Some p0 →
  recorded spec args kwargs !! p0
  = match kwargs !! p0 with Some v => Some v | None => default_of spec 0 end.
Proof.
  intros Hwf Hp. unfold recorded. rewrite update_all_items_lookup.
  destruct (kwargs !! p0); [done|].
  rewrite update_all_lookup_notin; [by apply default_items_lookup|].
  intros (j & w & Hj & _)%zip_fst_lookup. rewrite lookup_tail in Hj.
  destruct Hwf as [Hnd _].
  by pose proof (NoDup_lookup _ _ _ _ Hnd Hp Hj).
Qed.

(** C10, amended. If the instance parameter has no default and no
    keyword argument of the call bears its name, the mapping recorded
    on the instance has no entry for it. *)
Theorem config_excludes_instance_parameter spec p0 self args kwargs
    (h : heap) c fs :
  wf_spec spec →
  attrs spec !! 0 = Some p0 →
  default_of spec 0 = None →
  kwargs !! p0 = None →
  h !! self = Some (OInst c fs) →
  ∃ h' l cfg,
    store_config spec (VRef self) args kwargs h = (Ok tt, h') ∧
    getattr (VRef self) "config" h' = (Ok (VRef l), h') ∧
    h' !! l = Some (ODict cfg) ∧
    cfg !! p0 = None.
Proof.
  intros Hwf Hp Hd Hk Hs.
  exists (with_config self (recorded spec args kwargs) h), (length h),
    (recorded spec args kwargs).
  split; [by eapply store_config_run|]. split.
  { unfold getattr. rewrite (with_config_self _ _ _ _ _ Hs).
    by rewrite lookup_insert_eq. }
  split; [by eapply with_config_dict|].
  by rewrite (recorded_lookup_first _ _ _ _ Hwf Hp), Hk.
Qed.

Lemma config_excludes_instance_parameter_witness :
  ∃ h' l cfg,
    store_config net_spec (VRef 0) [VInt 32] {["name" := VStr "x"]}
      [OInst "Net" ∅] = (Ok tt, h') ∧
    getattr (VRef 0) "config" h' = (Ok (VRef l), h') ∧
    h' !! l = Some (ODict cfg) ∧
    cfg !! "self" = None.
Proof.
  refine (config_excludes_instance_parameter net_spec "self" 0 [VInt 32]
            {["name" := VStr "x"]} [OInst "Net" ∅] "Net" ∅ _ _ _ _ _).
  - solve_wf_spec.
  - reflexivity.
  - reflexivity.
  - reflexivity.
  - reflexivity.
Defined.

(** C4. On an instance without a [config] attribute the base
    constructor raises the [RuntimeError] that names
    [@store_config_args], whatever [keras.Model.__init__] would do, and
    leaves the heap as it found it; on an instance with the attribute it
    calls [keras.Model.__init__] on the same instance, positional and
    keyword arguments, and returns [None] unless that call raises. *)
Theorem base_constructor_guard keras_Model_init self args kwargs
    (h : heap) c fs :
  h !! self = Some (OInst c fs) →
  LoadableModel_init keras_Model_init (VRef self) args kwargs h
  = match fs !! "config" with
    | None =>
        (Raise (RuntimeError "models that inherit from LoadableModel must decorate the constructor with @store_config_args"), h)
    | Some _ =>
        match keras_Model_init (VRef self) args kwargs h with
        | (Ok _, h') => (Ok VNone, h')
        | (Raise e, h') => (Raise e, h')
        end
    end.
Proof.
  intros Hs. unfold LoadableModel_init, bind, hasattr. rewrite Hs.
  destruct (fs !! "config") as [v|] eqn:Hc.
  - rewrite bool_decide_eq_true_2 by eauto. cbn [negb].
    by destruct (keras_Model_init _ _ _ _) as [[r|e] h'].
  - rewrite bool_decide_eq_false_2 by (by intros [? ?]). done.
Qed.

Lemma base_constructor_guard_witness :
  LoadableModel_init keras_init_ok (VRef 0) [VInt 32] ∅ [OInst "Net" ∅]
  = (Raise (RuntimeError "models that inherit from LoadableModel must decorate the constructor with @store_config_args"),
     [OInst "Net" ∅]).
Proof.
  refine (base_constructor_guard keras_init_ok 0 [VInt 32] ∅
            [OInst "Net" ∅] "Net" ∅ _).
  reflexivity.
Defined.

(** ** Running [load] *)

Section LoadRuns.

Variable utf8_decode : list Byte.byte → result string.
Variable json_loads : string → result val.
Variable keras_load_weights : val → string → bool → M heap val.

Lemma getitem_heap d k (h : heap) : (getitem d k h).2 = h.
Proof.
  unfold getitem. destruct d as [| | | | |items|l]; try done.
  - by destruct (_ !! k).
  - destruct (h !! l) as [[m|]|]; try done. by destruct (m !! k).
Qed.

Lemma remove_first_head x l : remove_first x (x :: l) = l.
Proof. cbn. by rewrite decide_True. Qed.

Lemma file_phase_run path (w : world) :
  with_h5file path "r" (read_config utf8_decode json_loads) w
  = match w_disk w !! path with
    | Some (Container a) =>
        (parse_config utf8_decode json_loads a (w_heap w),
         advance w (w_heap w) (file_phase path))
    | Some Unreadable =>
        (Raise (OSError "Unable to open file"),
         advance w (w_heap w) [EvOpen path "r"])
    | None =>
        (Raise (OSError "No such file or directory"),
         advance w (w_heap w) [EvOpen path "r"])
    end.
Proof.
  unfold with_h5file, h5_open, bind, emit. cbn [w_disk w_heap w_open w_log].
  destruct (w_disk w !! path) as [[|a]|] eqn:Hd; try done.
  unfold read_config, h5_attr, h5_close, bind, emit, of_result, lift, advance,
    parse_config, file_phase.
  cbn [w_disk w_heap w_open w_log].
  rewrite decide_True by left. rewrite Hd.
  destruct (a !! "model_config") as [raw|].
  2:{ cbn [w_disk w_heap w_open w_log]. rewrite remove_first_head.
      by rewrite <- !app_assoc. }
  destruct (utf8_decode raw) as [text|e].
  2:{ cbn [w_disk w_heap w_open w_log]. rewrite remove_first_head.
      by rewrite <- !app_assoc. }
  destruct (json_loads text) as [parsed|e].
  2:{ cbn [w_disk w_heap w_open w_log]. rewrite remove_first_head.
      by rewrite <- !app_assoc. }
  cbn [w_disk w_heap w_open w_log].
  pose proof (getitem_heap parsed "config" (w_heap w)) as Hh.
  destruct (getitem parsed "config" (w_heap w)) as [r h']. simpl in Hh. subst h'.
  destruct r; cbn [w_disk w_heap w_open w_log fst]; rewrite remove_first_head;
    by rewrite <- !app_assoc.
Qed.

Lemma unpack_mapping_heap d (h : heap) : (unpack_mapping d h).2 = h.
Proof.
  unfold unpack_mapping. destruct d as [| | | | |items|l]; try done.
  by destruct (h !! l) as [[m|]|].
Qed.

(** Every run of [load], outcome and final world. *)
Lemma load_run cls path by_name (w : world) :
  load utf8_decode json_loads keras_load_weights cls path by_name w
  = match with_h5file path "r" (read_config utf8_decode json_loads) w with
    | (Raise e, w1) => (Raise e, w1)
    | (Ok config, w1) =>
        match from_config cls config VNone (w_heap w1) with
        | (Raise e, h1) =>
            (Raise e, advance w1 h1 (construct_log cls config (w_heap w1)))
        | (Ok model, h1) =>
            match keras_load_weights model path by_name h1 with
            | (Raise e, h2) =>
                (Raise e, advance w1 h2 [EvConstruct (cls_name cls) config;
                                         EvLoadWeights model path by_name])
            | (Ok _, h2) =>
                (Ok model, advance w1 h2 [EvConstruct (cls_name cls) config;
                                          EvLoadWeights model path by_name])
            end
        end
    end.
Proof.
  unfold load. rewrite run_bind.
  destruct (with_h5file _ _ _ w) as [[config|e] w1]; [|done].
  unfold construct, load_weights, from_config, construct_log, advance.
  pose proof (unpack_mapping_heap config (w_heap w1)) as Hu.
  unfold bind, emit, lift, ret. cbn [w_disk w_heap w_open w_log].
  destruct (unpack_mapping config (w_heap w1)) as [[kwargs|e] h0].
  2:{ cbn [w_disk w_heap w_open w_log]. by rewrite app_nil_r. }
  simpl in Hu. subst h0. cbn [w_disk w_heap w_open w_log].
  destruct (instantiate cls [] kwargs (w_heap w1)) as [[model|e] h1]; [|done].
  cbn [w_disk w_heap w_open w_log].
  destruct (keras_load_weights model path by_name h1) as [[r|e] h2];
    by rewrite <- !app_assoc.
Qed.

(** Whatever happens, [load] leaves the set of open files and the disk
    as it found them: the scoped read closes the file on every way out. *)
Lemma load_closes_file cls path by_name (w : world) :
  let w' := (load utf8_decode json_loads keras_load_weights cls path by_name
               w).2 in
  w_open w' = w_open w ∧ w_disk w' = w_disk w.
Proof.
  rewrite load_run, file_phase_run.
  destruct (w_disk w !! path) as [[|a]|]; try done.
  destruct (parse_config _ _ a (w_heap w)) as [config|e]; [|done].
  destruct (from_config cls config VNone _) as [[model|e] h1]; [|done].
  by destruct (keras_load_weights model path by_name h1) as [[r|e] h2].
Qed.

End LoadRuns.

(** C3. When every step succeeds, [load] returns the instance the
    constructor built, and the calls it made are, in this order: open
    [path] for reading, read the attribute [model_config], close the
    file, call the class on the value found under [config] (unpacked as
    keyword arguments), call [load_weights] on that instance with the
    same [path] and [by_name].  The close comes before the construction
    and before the loading of weights, and the set of open files is at
    the end what it was at the start. *)
Theorem load_steps_in_order utf8_decode json_loads keras_load_weights
    cls path by_name (w : world) a raw text parsed config model h1 r h2 :
  w_disk w !! path = Some (Container a) →
  a !! "model_config" = Some raw →
  utf8_decode raw = Ok text →
  json_loads text = Ok parsed →
  getitem parsed "config" (w_heap w) = (Ok config, w_heap w) →
  (kwargs <- unpack_mapping config ;; instantiate cls [] kwargs) (w_heap w)
  = (Ok model, h1) →
  keras_load_weights model path by_name h1 = (Ok r, h2) →
  load utf8_decode json_loads keras_load_weights cls path by_name w
  = (Ok model,
     {| w_heap := h2; w_disk := w_disk w; w_open := w_open w;
        w_log := w_log w ++ [EvOpen path "r";
                             EvGetAttr path "model_config";
                             EvClose path;
                             EvConstruct (cls_name cls) config;
                             EvLoadWeights model path by_name] |}).
Proof.
  intros Hd Ha Hu Hj Hg Hc Hw.
  rewrite load_run, file_phase_run, Hd.
  unfold parse_config. rewrite Ha, Hu, Hj, Hg. cbn [fst].
  unfold from_config, advance, file_phase. cbn [w_disk w_heap w_open w_log].
  rewrite Hc, Hw. by rewrite <- app_assoc.
Qed.

Lemma load_steps_in_order_witness :
  load demo_decode demo_parse demo_load_weights net_cls "model.h5" true
    demo_world
  = (Ok (VRef 0),
     {| w_heap := [OInst "Net" {["config" := VRef 1]};
                   ODict {["filters" := VInt 32; "depth" := VInt 4;
                           "name" := VStr "net"]}];
        w_disk := w_disk demo_world; w_open := [];
        w_log := [] ++ [EvOpen "model.h5" "r";
                        EvGetAttr "model.h5" "model_config";
                        EvClose "model.h5";
                        EvConstruct "Net" (VDict [("filters", VInt 32)]);
                        EvLoadWeights (VRef 0) "model.h5" true] |}).
Proof.
  refine (load_steps_in_order demo_decode demo_parse demo_load_weights
            net_cls "model.h5" true demo_world
            {["model_config" := []]} []
            "{'class_name': 'Net', 'config': {'filters': 32}}"
            (VDict [("class_name", VStr "Net");
                    ("config", VDict [("filters", VInt 32)])])
            (VDict [("filters", VInt 32)]) (VRef 0)
            [OInst "Net" {["config" := VRef 1]};
             ODict {["filters" := VInt 32; "depth" := VInt 4;
                     "name" := VStr "net"]}]
            VNone _ _ _ _ _ _ _ _).
  - vm_compute. reflexivity.
  - reflexivity.
  - reflexivity.
  - reflexivity.
  - vm_compute. reflexivity.
  - vm_compute. reflexivity.
  - reflexivity.
Defined.

Lemma construct_is_factory cls config (w : world) :
  construct cls config w = construct_via_factory cls config w.
Proof.
  unfold construct, construct_via_factory, from_config.
  pose proof (unpack_mapping_heap config (w_heap w)) as Hu.
  unfold bind, emit, lift. cbn [w_disk w_heap w_open w_log].
  destruct (unpack_mapping config (w_heap w)) as [[kwargs|e] h0] eqn:Hun;
    [|done].
  simpl in Hu. subst h0. cbn [w_disk w_heap w_open w_log].
  by rewrite Hun.
Qed.

(** C5. [from_config] is the call of the class on the unpacked
    mapping, whatever [custom_objects] is, and [load] builds its instance
    exactly as the factory would from the extracted configuration. *)
Theorem from_config_is_keyword_construction utf8_decode json_loads
    keras_load_weights cls c x :
  from_config cls c x
  = (kwargs <- unpack_mapping c ;; instantiate cls [] kwargs) ∧
  (∀ y, from_config cls c x = from_config cls c y) ∧
  (∀ w, construct cls c w = construct_via_factory cls c w) ∧
  (∀ path by_name w,
     load utf8_decode json_loads keras_load_weights cls path by_name w
     = load_via_factory utf8_decode json_loads keras_load_weights cls path
         by_name w).
Proof.
  split; [done|]. split; [done|]. split; [apply construct_is_factory|].
  intros path by_name w. unfold load, load_via_factory.
  rewrite !run_bind.
  destruct (with_h5file _ _ _ w) as [[config|e] w1]; [|done].
  by rewrite !run_bind, construct_is_factory.
Qed.

(** C7. Every failure of [load] reaches the caller as an exception.
    A missing or unreadable file raises the [OSError] of the file
    layer; a container without the [model_config] attribute raises
    [KeyError]; an attribute that does not decode or does not parse
    raises the codec's or the parser's exception.  In all these cases,
    and for any other failure of the metadata read, the heap is
    untouched (no instance was created), the file is closed again and
    no constructor was called.  An exception of the construction step
    (of unpacking the configuration, or of the constructor) or of
    [load_weights] comes out unchanged as well.  Conversely [load]
    returns an instance only when every step succeeded. *)
Theorem load_propagates_failures utf8_decode json_loads keras_load_weights
    cls path by_name (w : world) :
  match w_disk w !! path with
  | None =>
      load utf8_decode json_loads keras_load_weights cls path by_name w
      = (Raise (OSError "No such file or directory"),
         advance w (w_heap w) [EvOpen path "r"])
  | Some Unreadable =>
      load utf8_decode json_loads keras_load_weights cls path by_name w
      = (Raise (OSError "Unable to open file"),
         advance w (w_heap w) [EvOpen path "r"])
  | Some (Container a) =>
      match a !! "model_config" with
      | None =>
          load utf8_decode json_loads keras_load_weights cls path by_name w
          = (Raise (KeyError "model_config"),
             advance w (w_heap w) (file_phase path))
      | Some raw =>
          ∀ e, utf8_decode raw = Raise e ∨
               (∃ text, utf8_decode raw = Ok text ∧ json_loads text = Raise e) →
            load utf8_decode json_loads keras_load_weights cls path by_name w
            = (Raise e, advance w (w_heap w) (file_phase path))
      end
  end ∧
  (∀ a e,
     w_disk w !! path = Some (Container a) →
     parse_config utf8_decode json_loads a (w_heap w) = Raise e →
     load utf8_decode json_loads keras_load_weights cls path by_name w
     = (Raise e, advance w (w_heap w) (file_phase path))) ∧
  (∀ a config e h1,
     w_disk w !! path = Some (Container a) →
     parse_config utf8_decode json_loads a (w_heap w) = Ok config →
     unpack_mapping config (w_heap w) = (Raise e, h1) →
     load utf8_decode json_loads keras_load_weights cls path by_name w
     = (Raise e, advance w (w_heap w) (file_phase path))) ∧
  (∀ a config kwargs e h1,
     w_disk w !! path = Some (Container a) →
     parse_config utf8_decode json_loads a (w_heap w) = Ok config →
     unpack_mapping config (w_heap w) = (Ok kwargs, w_heap w) →
     instantiate cls [] kwargs (w_heap w) = (Raise e, h1) →
     load utf8_decode json_loads keras_load_weights cls path by_name w
     = (Raise e,
        advance w h1 (file_phase path ++ [EvConstruct (cls_name cls) config]))) ∧
  (∀ a config model h1 e h2,
     w_disk w !! path = Some (Container a) →
     parse_config utf8_decode json_loads a (w_heap w) = Ok config →
     from_config cls config VNone (w_heap w) = (Ok model, h1) →
     keras_load_weights model path by_name h1 = (Raise e, h2) →
     load utf8_decode json_loads keras_load_weights cls path by_name w
     = (Raise e,
        advance w h2 (file_phase path ++ [EvConstruct (cls_name cls) config;
                                          EvLoadWeights model path by_name]))) ∧
  ∀ model w',
    load utf8_decode json_loads keras_load_weights cls path by_name w
    = (Ok model, w') →
    ∃ a raw text parsed config h1 r,
      w_disk w !! path = Some (Container a) ∧
      a !! "model_config" = Some raw ∧
      utf8_decode raw = Ok text ∧
      json_loads text = Ok parsed ∧
      getitem parsed "config" (w_heap w) = (Ok config, w_heap w) ∧
      from_config cls config VNone (w_heap w) = (Ok model, h1) ∧
      keras_load_weights model path by_name h1 = (Ok r, w_heap w').
Proof.
  split; [|split; [|split; [|split; [|split]]]].
  - rewrite load_run, file_phase_run.
    destruct (w_disk w !! path) as [[|a]|]; try done.
    unfold parse_config. destruct (a !! "model_config") as [raw|]; [|done].
    intros e [Hu|(text & Hu & Hj)].
    + by rewrite Hu.
    + by rewrite Hu, Hj.
  - intros a e Hd Hp. by rewrite load_run, file_phase_run, Hd, Hp.
  - intros a config e h1 Hd Hp Hu.
    pose proof (unpack_mapping_heap config (w_heap w)) as Hh.
    rewrite Hu in Hh. simpl in Hh. subst h1.
    rewrite load_run, file_phase_run, Hd, Hp. cbn [advance w_heap].
    unfold from_config, construct_log.
    rewrite (run_bind_raise _ _ _ _ _ Hu), Hu.
    unfold advance. cbn [w_disk w_heap w_open w_log].
    by rewrite app_nil_r.
  - intros a config kwargs e h1 Hd Hp Hu Hc.
    rewrite load_run, file_phase_run, Hd, Hp. cbn [advance w_heap].
    unfold from_config, construct_log.
    rewrite (run_bind_ok _ _ _ _ _ Hu), Hc, Hu.
    unfold advance. cbn [w_disk w_heap w_open w_log].
    by rewrite <- app_assoc.
  - intros a config model h1 e h2 Hd Hp Hc Hw.
    rewrite load_run, file_phase_run, Hd, Hp. cbn [advance w_heap].
    rewrite Hc, Hw. unfold advance. cbn [w_disk w_heap w_open w_log].
    by rewrite <- app_assoc.
  - intros model w'. rewrite load_run, file_phase_run.
    destruct (w_disk w !! path) as [[|a]|] eqn:Hd;
      [intros [=] | | intros [=]].
    unfold parse_config.
    destruct (a !! "model_config") as [raw|] eqn:Ha; [|intros [=]].
    destruct (utf8_decode raw) as [text|] eqn:Hu; [|intros [=]].
    destruct (json_loads text) as [parsed|] eqn:Hj; [|intros [=]].
    pose proof (getitem_heap parsed "config" (w_heap w)) as Hh.
    destruct (getitem parsed "config" (w_heap w)) as [[config|] h0] eqn:Hg;
      [|intros [=]].
    simpl in Hh. subst h0. cbn [fst advance w_heap].
    destruct (from_config cls config VNone (w_heap w)) as [[m|] h1] eqn:Hc;
      [|intros [=]].
    destruct (keras_load_weights m path by_name h1) as [[r|] h2] eqn:Hw;
      [|intros [=]].
    intros Heq. injection Heq as -> <-.
    exists a, raw, text, parsed, config, h1, r. by repeat split.
Qed.

Lemma load_propagates_failures_witness :
  load demo_decode demo_parse demo_load_weights net_cls "missing.h5" false
    demo_world
  = (Raise (OSError "No such file or directory"),
     advance demo_world [] [EvOpen "missing.h5" "r"]) ∧
  load demo_decode demo_parse demo_load_weights net_cls "notes.txt" false
    demo_world
  = (Raise (OSError "Unable to open file"),
     advance demo_world [] [EvOpen "notes.txt" "r"]).
Proof.
  split.
  - exact (proj1 (load_propagates_failures demo_decode demo_parse
                    demo_load_weights net_cls "missing.h5" false demo_world)).
  - exact (proj1 (load_propagates_failures demo_decode demo_parse
                    demo_load_weights net_cls "notes.txt" false demo_world)).
Defined.

(** ** Building an instance of a decorated class *)

Lemma surplus_kw_wrapper (kwargs : gmap string val) :
  kwargs !! "self" = None → surplus_kw wrapper_sig kwargs = kwargs.
Proof.
  intros Hk. apply map_eq. intros k. unfold surplus_kw.
  destruct (kwargs !! k) as [v|] eqn:Hv.
  - apply map_lookup_filter_Some. split; [done|]. cbn.
    intros Hin%list_elem_of_singleton. congruence.
  - apply map_lookup_filter_None. by left.
Qed.

Lemma bind_wrapper_sig v args (kwargs : gmap string val) :
  bind_args wrapper_sig (v :: args) kwargs
  = match kwargs !! "self" with
    | Some _ => Raise (TypeError "got multiple values for argument")
    | None => Ok {| b_named := {["self" := v]}; b_varargs := args;
                    b_varkw := kwargs |}
    end.
Proof.
  unfold bind_args. rewrite decide_False by (by intros [_ [=]]).
  rewrite decide_False by (by intros [[=] _]).
  cbn [wrapper_sig attrs imap collect]. unfold bind_param. cbn [lookup list_lookup].
  destruct (kwargs !! "self") eqn:Hk; [done|].
  cbn. rewrite surplus_kw_wrapper by done. f_equal.
Qed.

(** A call of the decorated function that passes the instance
    positionally and no keyword called [self] enters the wrapper's body
    with exactly its arguments; with such a keyword Python refuses the
    call before the body runs. *)
Lemma call_decorated func wrapped spec self args (kwargs : gmap string val) :
  store_config_args func = Ok wrapped →
  getargspec func = Ok spec →
  call wrapped (self :: args) kwargs
  = match kwargs !! "self" with
    | Some _ => raise (TypeError "got multiple values for argument")
    | None => wrapper spec func self args kwargs
    end.
Proof.
  unfold store_config_args. intros Hw Hg. rewrite Hg in Hw.
  injection Hw as <-. cbn [call]. rewrite bind_wrapper_sig.
  destruct (kwargs !! "self"); [done|].
  cbn [b_varargs b_varkw]. unfold param. cbn [b_named].
  by rewrite lookup_singleton_eq.
Qed.

(** C8, as stated, fails: the decorated function has the signature of
    the wrapper, not that of the original.  The undecorated
    [def __init__(this, **kw)] accepts a keyword called [self]; once
    decorated, the same call is refused before anything is recorded. *)
Lemma decorated_call_refuses_keyword_self :
  call this_init [VRef 0] {["self" := VInt 1]} [OInst "This" ∅]
  = (Ok VNone, [OInst "This" ∅]) ∧
  ∃ wrapped,
    store_config_args this_init = Ok wrapped ∧
    call wrapped [VRef 0] {["self" := VInt 1]} [OInst "This" ∅]
    = (Raise (TypeError "got multiple values for argument"),
       [OInst "This" ∅]).
Proof.
  split; [vm_compute; reflexivity|].
  eexists. split; [reflexivity|]. vm_compute. reflexivity.
Qed.

(** C8, amended. For every call of the decorated constructor that
    passes an instance as first positional argument and no keyword
    argument called [self]: the call runs the original constructor on
    the very same positional and keyword arguments, and its outcome
    (returned value or exception, and final heap) is the outcome of
    that call.  The heap on which the original constructor starts
    differs from the caller's only by the new dictionary and the
    instance's [config] attribute that points to it. *)
Theorem decorated_call_is_transparent func wrapped self args
    (kwargs : gmap string val) (h : heap) c fs :
  store_config_args func = Ok wrapped →
  h !! self = Some (OInst c fs) →
  kwargs !! "self" = None →
  ∃ spec h',
    getargspec func = Ok spec ∧
    call wrapped (VRef self :: args) kwargs h
    = call func (VRef self :: args) kwargs h' ∧
    length h' = S (length h) ∧
    h' !! self = Some (OInst c (<["config" := VRef (length h)]> fs)) ∧
    h' !! length h = Some (ODict (recorded spec args kwargs)) ∧
    ∀ l, l ≠ self → l < length h → h' !! l = h !! l.
Proof.
  intros Hw Hs Hk.
  destruct (getargspec func) as [spec|e] eqn:Hg.
  2:{ unfold store_config_args in Hw. by rewrite Hg in Hw. }
  exists spec, (with_config self (recorded spec args kwargs) h).
  split; [done|]. split; [|split; [|split; [|split]]].
  - rewrite (call_decorated _ _ _ _ _ _ Hw Hg), Hk. unfold wrapper.
    by erewrite run_bind_ok by by eapply store_config_run.
  - rewrite (with_config_inst _ _ _ _ _ Hs), length_insert, length_app.
    simpl. lia.
  - by apply with_config_self.
  - by eapply with_config_dict.
  - intros l Hne Hlt. by apply with_config_old.
Qed.

Lemma decorated_call_is_transparent_witness :
  ∃ spec h',
    getargspec net_init = Ok spec ∧
    call (decorate net_init) [VRef 0; VInt 32] ∅ [OInst "Net" ∅]
    = call net_init [VRef 0; VInt 32] ∅ h' ∧
    length h' = 2 ∧
    h' !! 0 = Some (OInst "Net" (<["config" := VRef 1]> ∅)) ∧
    h' !! 1 = Some (ODict (recorded spec [VInt 32] ∅)) ∧
    ∀ l, l ≠ 0 → l < 1 → h' !! l = [OInst "Net" ∅] !! l.
Proof.
  refine (decorated_call_is_transparent net_init (decorate net_init) 0
            [VInt 32] ∅ [OInst "Net" ∅] "Net" ∅ _ _ _); reflexivity.
Defined.

(** A call of the decorated class, step by step. *)
Lemma instantiate_decorated name spec body args kwargs (h : heap) :
  instantiate (decorated_class name spec body) args kwargs h
  = match kwargs !! "self" with
    | Some _ =>
        (Raise (TypeError "got multiple values for argument"),
         h ++ [OInst name ∅])
    | None =>
        let h0 := with_config (length h) (recorded spec args kwargs)
                    (h ++ [OInst name ∅]) in
        match bind_args spec (VRef (length h) :: args) kwargs with
        | Raise e => (Raise e, h0)
        | Ok b =>
            match body b h0 with
            | (Ok VNone, h1) => (Ok (VRef (length h)), h1)
            | (Ok _, h1) =>
                (Raise (TypeError "__init__() should return None"), h1)
            | (Raise e, h1) => (Raise e, h1)
            end
        end
    end.
Proof.
  unfold instantiate, decorated_class, decorate. cbn [cls_name cls_init].
  cbn [store_config_args getargspec].
  rewrite (run_bind_ok _ _ h (length h) (h ++ [OInst name ∅])) by done.
  cbn [call]. rewrite bind_wrapper_sig.
  destruct (kwargs !! "self") eqn:Hk; [done|].
  cbn [b_varargs b_varkw]. unfold param. cbn [b_named].
  rewrite lookup_singleton_eq. cbn [default].
  assert (Hs : (h ++ [OInst name ∅]) !! length h = Some (OInst name ∅)).
  { by rewrite lookup_app_r, Nat.sub_diag by lia. }
  unfold wrapper. rewrite run_bind.
  rewrite run_bind, (store_config_run _ _ _ _ _ _ _ Hs).
  cbn [call]. cbv zeta.
  destruct (bind_args spec _ kwargs) as [b|e]; [|done].
  destruct (body b _) as [[r|e] h1]; [|done].
  by destruct r.
Qed.

Lemma recorded_lookup_outside spec args (kwargs : gmap string val) k :
  k ∉ attrs spec → kwargs !! k = None →
  recorded spec args kwargs !! k = None.
Proof.
  intros Hk Hkw. unfold recorded.
  rewrite update_all_items_lookup, Hkw.
  rewrite update_all_lookup_notin.
  - unfold default_items. destruct (defaults spec) as [ds|]; [|done].
    rewrite update_all_lookup_notin; [done|].
    intros (j & w & Hj & _)%zip_fst_lookup.
    apply Hk. apply elem_of_reverse. by eapply list_elem_of_lookup_2.
  - intros (j & w & Hj & _)%zip_fst_lookup. rewrite lookup_tail in Hj.
    apply Hk. by eapply list_elem_of_lookup_2.
Qed.

Lemma update_all_mono items : ∀ (c : gmap string val) k,
  is_Some (c !! k) → is_Some (update_all items c !! k).
Proof.
  induction items as [|[k' v'] items IH]; intros c k Hs; [done|].
  rewrite update_all_cons. apply IH. apply lookup_insert_is_Some.
  destruct (decide (k' = k)); [by left|by right].
Qed.

(** Recording the recorded mapping again, passed as keywords, changes
    nothing. *)
Lemma recorded_again spec args kwargs :
  recorded spec [] (recorded spec args kwargs) = recorded spec args kwargs.
Proof.
  apply map_eq. intros k. set (cfg := recorded spec args kwargs).
  unfold recorded at 1. rewrite update_all_items_lookup.
  destruct (cfg !! k) as [v|] eqn:Hc; [done|].
  rewrite zip_with_nil_r. cbn [update_all foldl].
  destruct (update_all (default_items spec) ∅ !! k) as [d|] eqn:Hd; [|done].
  assert (Hs : is_Some (cfg !! k)).
  { unfold cfg, recorded. do 2 apply update_all_mono. eauto. }
  rewrite Hc in Hs. by destruct Hs.
Qed.

Lemma named_lookup_outside (ks : list string) (vs : list val) p :
  p ∉ ks → (list_to_map (zip ks vs) : gmap string val) !! p = None.
Proof.
  intros Hp. apply not_elem_of_list_to_map_1.
  intros (j & w & Hj & _)%zip_fst_lookup.
  apply Hp. by eapply list_elem_of_lookup_2.
Qed.

Lemma recorded_lookup_surplus spec args (kwargs : gmap string val) k :
  k ∉ attrs spec → recorded spec args kwargs !! k = kwargs !! k.
Proof.
  intros Hk. destruct (kwargs !! k) as [v|] eqn:Hv.
  - unfold recorded. by rewrite update_all_items_lookup, Hv.
  - by apply recorded_lookup_outside.
Qed.

(** The surplus keywords of the rebuilt call are those of the original
    call. *)
Lemma surplus_kw_recorded spec args (kwargs : gmap string val) :
  surplus_kw spec (recorded spec args kwargs) = surplus_kw spec kwargs.
Proof.
  apply map_eq. intros k. apply option_eq. intros v. unfold surplus_kw.
  rewrite !map_lookup_filter_Some. cbn.
  split; intros [Hv Hk]; (split; [|done]).
  - by rewrite recorded_lookup_surplus in Hv.
  - by rewrite recorded_lookup_surplus.
Qed.

(** The call rebuilt from the recorded mapping binds, and it gives
    every parameter but the instance parameter the value of the
    original call, and the same surplus keywords. *)
Lemma rebind spec p0 m m' args kwargs b :
  wf_spec spec →
  attrs spec !! 0 = Some p0 → default_of spec 0 = None →
  bind_args spec (VRef m :: args) kwargs = Ok b →
  ∃ b', bind_args spec [VRef m'] (recorded spec args kwargs) = Ok b' ∧
        rebuilt_args p0 b b' ∧
        b_named b' !! p0 = Some (VRef m').
Proof.
  intros Hwf Hp0 Hd0 Hb. set (cfg := recorded spec args kwargs).
  pose proof Hwf as [Hnd _].
  pose proof (bind_args_inv _ _ _ _ Hb) as (Hlen & Hsur & vs & Hvs & Hbeq).
  assert (Hkw0 : kwargs !! p0 = None).
  { destruct (bind_args_named _ _ _ _ 0 p0 Hnd Hb Hp0) as (v & Hv & _).
    by destruct (bind_param_positional _ _ _ _ _ _ (VRef m) Hv). }
  assert (Hcfg0 : cfg !! p0 = None).
  { unfold cfg. by rewrite (recorded_lookup_first _ _ _ _ Hwf Hp0), Hkw0. }
  assert (Hcfg : ∀ i p, attrs spec !! S i = Some p →
                        ∃ v, cfg !! p = Some v ∧ b_named b !! p = Some v).
  { intros i p Hp.
    destruct (bind_args_named _ _ _ _ (S i) p Hnd Hb Hp) as (v & Hv & Hn).
    exists v. split; [|done]. unfold cfg.
    rewrite (recorded_lookup _ _ _ _ _ Hwf Hp).
    destruct (args !! i) as [w|] eqn:Hw.
    - destruct (bind_param_positional _ _ _ _ _ _ w Hv) as [-> ->]; done.
    - pose proof (bind_param_rest _ _ _ _ _ _ Hv) as Hr.
      cbn in Hr. specialize (Hr Hw). by destruct (kwargs !! p). }
  assert (Hsur' : surplus_kw spec cfg = surplus_kw spec kwargs)
    by apply surplus_kw_recorded.
  destruct (imap_all_Ok (bind_param spec [VRef m'] cfg) (attrs spec))
    as [vs' Hvs'].
  { intros [|i] p Hp; unfold bind_param.
    - assert (p = p0) as -> by congruence. cbn. rewrite Hcfg0. eauto.
    - cbn. destruct (Hcfg i p Hp) as (v & -> & _). eauto. }
  assert (Hb' : bind_args spec [VRef m'] cfg
                = Ok {| b_named := list_to_map (zip (attrs spec) vs');
                        b_varargs := drop (length (attrs spec)) [VRef m'];
                        b_varkw := surplus_kw spec cfg |}).
  { apply bind_args_intro; [| |done].
    - intros [Hlt _]. apply lookup_lt_Some in Hp0. cbn in Hlt. lia.
    - by rewrite Hsur'. }
  eexists. split; [exact Hb'|].
  assert (Hn' : ∀ i p, attrs spec !! i = Some p →
                ∃ v, bind_param spec [VRef m'] cfg i p = Ok v ∧
                     (list_to_map (zip (attrs spec) vs') : gmap string val) !! p
                     = Some v).
  { intros i p Hp.
    destruct (bind_args_named _ _ _ _ i p Hnd Hb' Hp) as (v & Hv & Hn).
    by exists v. }
  split; [split; [|split]|].
  - intros p Hne. cbn [b_named].
    destruct (decide (p ∈ attrs spec)) as [Hin|Hout].
    + apply list_elem_of_lookup in Hin as [[|i] Hp]; [congruence|].
      destruct (Hcfg i p Hp) as (v & Hc & ->).
      destruct (Hn' (S i) p Hp) as (v' & Hv' & ->).
      unfold bind_param in Hv'.
      change ([VRef m'] !! S i) with (([] : list val) !! i) in Hv'.
      rewrite lookup_nil, Hc in Hv'. congruence.
    + rewrite Hbeq. cbn [b_named]. by rewrite !named_lookup_outside.
  - cbn [b_varargs]. rewrite drop_ge; [done|].
    apply lookup_lt_Some in Hp0. cbn. lia.
  - rewrite Hbeq. cbn [b_varkw]. by rewrite Hsur'.
  - cbn [b_named]. destruct (Hn' 0 p0 Hp0) as (v & Hv & ->).
    unfold bind_param in Hv. cbn in Hv. rewrite Hcfg0 in Hv. congruence.
Qed.

Lemma inst_of_with_config self cfg (h : heap) c fs :
  h !! self = Some (OInst c fs) → inst_of (with_config self cfg h) self c cfg.
Proof.
  intros Hs. exists (<["config" := VRef (length h)]> fs), (length h).
  split; [by apply with_config_self|].
  split; [apply lookup_insert_eq|by eapply with_config_dict].
Qed.

Lemma inst_of_with_config_other self other cfg cfg' (h : heap) c :
  other ≠ self → inst_of h other c cfg' →
  inst_of (with_config self cfg h) other c cfg'.
Proof.
  intros Hne (fs & l & Hs & Hc & Hl). exists fs, l.
  split; [|split; [done|]].
  - rewrite with_config_old; [done..|]. by eapply lookup_lt_Some.
  - destruct (decide (l = self)) as [->|Hl'].
    + unfold with_config. by rewrite Hl.
    + rewrite with_config_old; [done..|]. by eapply lookup_lt_Some.
Qed.

Lemma inst_of_alloc (h : heap) o self c cfg :
  inst_of h self c cfg → inst_of (h ++ [o]) self c cfg.
Proof.
  intros (fs & l & Hs & Hc & Hl). exists fs, l.
  split; [|split; [done|]]; by apply lookup_app_l_Some.
Qed.

(** C2, as stated, fails for a constructor that needs its surplus
    positional arguments: they are not recorded, so the rebuilt call
    lacks them.  [Stack('conv')] succeeds, its recorded mapping is empty, and
    [from_config] on that mapping raises. *)
Lemma roundtrip_fails_with_varargs :
  let h1 := [OInst "Stack" {["config" := VRef 1; "first" := VStr "conv"]};
             ODict ∅] in
  instantiate stack_cls [VStr "conv"] ∅ [] = (Ok (VRef 0), h1) ∧
  get_config (VRef 0) h1 = (Ok (VRef 1), h1) ∧
  from_config stack_cls (VRef 1) VNone h1
  = (Raise (IndexError "tuple index out of range"),
     h1 ++ [OInst "Stack" {["config" := VRef 3]}; ODict ∅]).
Proof. repeat split; vm_compute; reflexivity. Qed.

(** C2, amended. Take a decorated constructor whose instance parameter
    has no default, none of whose other parameters is called [self],
    and whose body leaves recorded configurations alone and succeeds
    again whenever it is given the same named and keyword argument
    values without the surplus positional arguments (which are not
    recorded).  Then for every instance [m] the class has built,
    [from_config] on [m]'s configuration builds a new instance of the
    same class, and both instances carry the mapping recorded for the
    call that built [m].  The signature may have [*args] and
    [**kwargs]. *)
Theorem roundtrip_of_recorded_call name spec body p0 args kwargs
    (h h1 : heap) m custom :
  wf_spec spec →
  attrs spec !! 0 = Some p0 →
  default_of spec 0 = None →
  "self" ∉ tail (attrs spec) →
  keeps_config body →
  repeatable p0 body →
  instantiate (decorated_class name spec body) args kwargs h
  = (Ok (VRef m), h1) →
  ∃ l m' h2,
    get_config (VRef m) h1 = (Ok (VRef l), h1) ∧
    h1 !! l = Some (ODict (recorded spec args kwargs)) ∧
    from_config (decorated_class name spec body) (VRef l) custom h1
    = (Ok (VRef m'), h2) ∧
    m' ≠ m ∧
    inst_of h2 m' name (recorded spec args kwargs) ∧
    inst_of h2 m name (recorded spec args kwargs).
Proof.
  intros Hwf Hp0 Hd0 Hself Hkeep Hrep Hinst.
  rewrite instantiate_decorated in Hinst.
  destruct (kwargs !! "self") eqn:Hks; [done|]. cbv zeta in Hinst.
  destruct (bind_args spec _ kwargs) as [b|] eqn:Hb; [|done].
  set (cfg := recorded spec args kwargs) in *.
  destruct (body b _) as [[r|] hb] eqn:Hbody; [|done].
  assert (r = VNone ∧ m = length h ∧ hb = h1) as (-> & -> & ->).
  { destruct r; try done. by injection Hinst as -> ->. }
  assert (Hnew : ∀ h : heap, (h ++ [OInst name ∅]) !! length h
                             = Some (OInst name ∅)).
  { intros h'. by rewrite lookup_app_r, Nat.sub_diag by lia. }
  pose proof (Hkeep _ _ _ _ _ _ _ Hbody
                (inst_of_with_config _ cfg _ _ _ (Hnew h))) as Hm.
  pose proof Hm as (fs & l & Hs & Hc & Hl).
  assert (Hkw0 : kwargs !! p0 = None).
  { destruct (bind_args_named _ _ _ _ 0 p0 (proj1 Hwf) Hb Hp0) as (v & Hv & _).
    by destruct (bind_param_positional _ _ _ _ _ _ (VRef (length h)) Hv). }
  assert (Hcs : cfg !! "self" = None).
  { destruct (decide (p0 = "self")) as [->|Hne].
    - unfold cfg. by rewrite (recorded_lookup_first _ _ _ _ Hwf Hp0), Hks.
    - apply recorded_lookup_outside; [|done].
      destruct (attrs spec) as [|a rest]; [done|].
      injection Hp0 as ->. cbn in Hself.
      intros [?|?]%elem_of_cons; congruence. }
  destruct (rebind spec p0 (length h) (length h1) args kwargs b
              Hwf Hp0 Hd0 Hb) as (b' & Hb' & Hsame & Hb'0).
  fold cfg in Hb'.
  destruct (Hrep b b' _ _
              (with_config (length h1) cfg (h1 ++ [OInst name ∅]))
              (length h1) name cfg Hbody Hsame Hb'0
              (inst_of_with_config _ cfg _ _ _ (Hnew h1))) as [h2 Hbody'].
  exists l, (length h1), h2.
  split; [by unfold get_config, getattr; rewrite Hs, Hc|].
  split; [done|]. split.
  { unfold from_config.
    rewrite (run_bind_ok _ _ h1 cfg h1) by (by unfold unpack_mapping; rewrite Hl).
    rewrite instantiate_decorated, Hcs. cbv zeta.
    unfold cfg. rewrite recorded_again. fold cfg.
    by rewrite Hb', Hbody'. }
  split; [apply lookup_lt_Some in Hs; lia|].
  split.
  - eapply Hkeep; [exact Hbody'|]. eapply inst_of_with_config, Hnew.
  - eapply Hkeep; [exact Hbody'|].
    apply inst_of_with_config_other; [apply lookup_lt_Some in Hs; lia|].
    by apply inst_of_alloc.
Qed.

Lemma net_body_run b (h : heap) :
  net_body b h
  = match param b "self" with
    | VRef l =>
        match h !! l with
        | Some (OInst _ fs) =>
            match fs !! "config" with
            | Some _ => (Ok VNone, h)
            | None => (Raise config_error, h)
            end
        | _ => (Raise config_error, h)
        end
    | _ => (Raise config_error, h)
    end.
Proof.
  unfold net_body, LoadableModel_init, bind, hasattr.
  destruct (param b "self") as [| | | | | |l]; try done.
  destruct (h !! l) as [[|c fs]|]; try done.
  destruct (fs !! "config") eqn:Hc.
  - by rewrite bool_decide_eq_true_2 by eauto.
  - by rewrite bool_decide_eq_false_2 by (by intros [? ?]).
Qed.

Lemma net_body_keeps_config : keeps_config net_body.
Proof.
  intros b h h' v self cname cfg Hrun Hinst. rewrite net_body_run in Hrun.
  destruct (param b "self") as [| | | | | |l]; try done.
  destruct (h !! l) as [[|c fs]|]; try done.
  destruct (fs !! "config"); [|done]. by injection Hrun as _ <-.
Qed.

Lemma net_body_repeatable : repeatable "self" net_body.
Proof.
  intros b b' h h1 h' self' cname cfg _ _ Hself (fs & l & Hs & Hc & _).
  exists h'. rewrite net_body_run. unfold param. rewrite Hself.
  change (default VNone (Some (VRef self'))) with (VRef self').
  cbv beta iota. by rewrite Hs, Hc.
Qed.

Lemma roundtrip_of_recorded_call_witness :
  ∃ l m' h2,
    get_config (VRef 0)
      [OInst "Flex" {["config" := VRef 1]};
       ODict {["units" := VInt 8; "activation" := VStr "relu"]}]
    = (Ok (VRef l),
       [OInst "Flex" {["config" := VRef 1]};
        ODict {["units" := VInt 8; "activation" := VStr "relu"]}]) ∧
    [OInst "Flex" {["config" := VRef 1]};
     ODict {["units" := VInt 8; "activation" := VStr "relu"]}] !! l
    = Some (ODict (recorded flex_spec [VInt 8]
                     {["activation" := VStr "relu"]})) ∧
    from_config (decorated_class "Flex" flex_spec net_body) (VRef l) VNone
      [OInst "Flex" {["config" := VRef 1]};
       ODict {["units" := VInt 8; "activation" := VStr "relu"]}]
    = (Ok (VRef m'), h2) ∧
    m' ≠ 0 ∧
    inst_of h2 m' "Flex"
      (recorded flex_spec [VInt 8] {["activation" := VStr "relu"]}) ∧
    inst_of h2 0 "Flex"
      (recorded flex_spec [VInt 8] {["activation" := VStr "relu"]}).
Proof.
  refine (roundtrip_of_recorded_call "Flex" flex_spec net_body "self"
            [VInt 8] {["activation" := VStr "relu"]} []
            [OInst "Flex" {["config" := VRef 1]};
             ODict {["units" := VInt 8; "activation" := VStr "relu"]}]
            0 VNone _ _ _ _ net_body_keeps_config net_body_repeatable _).
  - solve_wf_spec.
  - reflexivity.
  - reflexivity.
  - by apply (bool_decide_unpack _); vm_compute.
  - vm_compute. reflexivity.
Defined.

(** ** What [get_config] returns for a constructed instance *)

(** C6, as stated, fails: the constructor body runs after the wrapper
    has recorded the call and may change [self.config].  For
    [def __init__(self, units)] whose body sets
    [self.config['built'] = True], [get_config] on the constructed
    instance returns a mapping with the entry [built], which the wrapper
    did not record. *)
Lemma constructor_can_change_config :
  let h1 := [OInst "Marking" {["config" := VRef 1]};
             ODict {["units" := VInt 8; "built" := VBool true]}] in
  instantiate (decorated_class "Marking" marking_spec marking_body)
    [VInt 8] ∅ [] = (Ok (VRef 0), h1) ∧
  get_config (VRef 0) h1 = (Ok (VRef 1), h1) ∧
  h1 !! 1 = Some (ODict {["units" := VInt 8; "built" := VBool true]}) ∧
  recorded marking_spec [VInt 8] ∅ = {["units" := VInt 8]} ∧
  recorded marking_spec [VInt 8] ∅ !! "built" = None.
Proof. repeat split; vm_compute; reflexivity. Qed.

(** C6, amended. For every instance constructed through a decorated
    constructor whose body neither rebinds [self.config] nor changes
    the dictionary it points to, [get_config] returns the stored
    mapping verbatim: the reference it returns is the dictionary object
    that the wrapper created and recorded into at construction time (no
    object was at that location before the construction), its content
    is still the recorded mapping, and [get_config] changes nothing. *)
Theorem get_config_returns_recorded_object name spec body args kwargs
    (h h1 : heap) m :
  leaves_config_alone body →
  instantiate (decorated_class name spec body) args kwargs h
  = (Ok (VRef m), h1) →
  ∃ h0 l,
    store_config spec (VRef m) args kwargs (h ++ [OInst name ∅])
    = (Ok tt, h0) ∧
    getattr (VRef m) "config" h0 = (Ok (VRef l), h0) ∧
    h !! l = None ∧
    h0 !! l = Some (ODict (recorded spec args kwargs)) ∧
    get_config (VRef m) h1 = (Ok (VRef l), h1) ∧
    h1 !! l = Some (ODict (recorded spec args kwargs)).
Proof.
  intros Hframe Hinst. rewrite instantiate_decorated in Hinst.
  destruct (kwargs !! "self"); [done|]. cbv zeta in Hinst.
  destruct (bind_args spec _ kwargs) as [b|]; [|done].
  destruct (body b _) as [[v|] hb] eqn:Hbody; [|done].
  assert (m = length h ∧ hb = h1) as [-> ->].
  { destruct v; try done. by injection Hinst as -> ->. }
  assert (Hs : (h ++ [OInst name ∅]) !! length h = Some (OInst name ∅)).
  { by rewrite lookup_app_r, Nat.sub_diag by lia. }
  set (cfg := recorded spec args kwargs) in *.
  set (h0 := with_config (length h) cfg (h ++ [OInst name ∅])) in *.
  set (l := length (h ++ [OInst name ∅])).
  assert (Hs0 : h0 !! length h
                = Some (OInst name (<["config" := VRef l]> ∅)))
    by (by apply with_config_self).
  assert (Hl0 : h0 !! l = Some (ODict cfg)) by (by eapply with_config_dict).
  destruct (Hframe _ _ _ _ _ _ _ _ _ Hbody Hs0 (lookup_insert_eq _ _ _) Hl0)
    as (fs' & Hs1 & Hc1 & Hl1).
  exists h0, l. split; [by eapply store_config_run|].
  split; [by unfold getattr; rewrite Hs0, lookup_insert_eq|].
  split; [apply lookup_ge_None_2; unfold l; rewrite length_app; simpl; lia|].
  split; [done|].
  split; [by unfold get_config, getattr; rewrite Hs1, Hc1|done].
Qed.

Lemma net_body_leaves_config_alone : leaves_config_alone net_body.
Proof.
  intros b h h' v self c fs l d Hrun Hs Hc Hl. rewrite net_body_run in Hrun.
  assert (h' = h) as ->.
  { destruct (param b "self") as [| | | | | |l0];
      try (by injection Hrun as _ <-).
    destruct (h !! l0) as [[|c0 fs0]|]; try (by injection Hrun as _ <-).
    destruct (fs0 !! "config"); by injection Hrun as _ <-. }
  by exists fs.
Qed.

Lemma get_config_returns_recorded_object_witness :
  ∃ h0 l,
    store_config net_spec (VRef 0) [VInt 32] {["name" := VStr "x"]}
      ([] ++ [OInst "Net" ∅]) = (Ok tt, h0) ∧
    getattr (VRef 0) "config" h0 = (Ok (VRef l), h0) ∧
    ([] : heap) !! l = None ∧
    h0 !! l = Some (ODict (recorded net_spec [VInt 32]
                             {["name" := VStr "x"]})) ∧
    get_config (VRef 0)
      [OInst "Net" {["config" := VRef 1]};
       ODict {["filters" := VInt 32; "depth" := VInt 4; "name" := VStr "x"]}]
    = (Ok (VRef l),
       [OInst "Net" {["config" := VRef 1]};
        ODict {["filters" := VInt 32; "depth" := VInt 4;
                "name" := VStr "x"]}]) ∧
    [OInst "Net" {["config" := VRef 1]};
     ODict {["filters" := VInt 32; "depth" := VInt 4; "name" := VStr "x"]}]
      !! l
    = Some (ODict (recorded net_spec [VInt 32] {["name" := VStr "x"]})).
Proof.
  refine (get_config_returns_recorded_object "Net" net_spec net_body
            [VInt 32] {["name" := VStr "x"]} []
            [OInst "Net" {["config" := VRef 1]};
             ODict {["filters" := VInt 32; "depth" := VInt 4;
                     "name" := VStr "x"]}]
            0 net_body_leaves_config_alone _).
  vm_compute. reflexivity.
Defined.

(** * Further properties of the decorator *)

Lemma store_config_records spec self args kwargs (h : heap) c fs :
  h !! self = Some (OInst c fs) →
  records spec self args kwargs h (recorded spec args kwargs).
Proof.
  intros Hs.
  exists (with_config self (recorded spec args kwargs) h), (length h).
  split; [by eapply store_config_run|]. split.
  - unfold getattr. rewrite (with_config_self _ _ _ _ _ Hs).
    by rewrite lookup_insert_eq.
  - by eapply with_config_dict.
Qed.

(** X1. Every keyword argument of a call is recorded under its name
    with its value, whether or not the signature has a parameter of
    that name. *)
Theorem keywords_are_always_recorded spec self args kwargs (h : heap)
    c fs k v :
  h !! self = Some (OInst c fs) →
  kwargs !! k = Some v →
  ∃ cfg, records spec self args kwargs h cfg ∧ cfg !! k = Some v.
Proof.
  intros Hs Hk. exists (recorded spec args kwargs).
  split; [by eapply store_config_records|].
  unfold recorded. by rewrite update_all_items_lookup, Hk.
Qed.

Lemma keywords_are_always_recorded_witness :
  ∃ cfg, records flex_spec 0 [VInt 8] {["activation" := VStr "relu"]}
           [OInst "Flex" ∅] cfg ∧
         cfg !! "activation" = Some (VStr "relu").
Proof.
  refine (keywords_are_always_recorded flex_spec 0 [VInt 8]
            {["activation" := VStr "relu"]} [OInst "Flex" ∅] "Flex" ∅
            "activation" (VStr "relu") _ _); reflexivity.
Defined.

Lemma recorded_take spec args args' kwargs :
  take (length (attrs spec) - 1) args = take (length (attrs spec) - 1) args' →
  recorded spec args kwargs = recorded spec args' kwargs.
Proof.
  intros Ht. unfold recorded. do 2 f_equal.
  rewrite <- (zip_with_take_r _ _ args), <- (zip_with_take_r _ _ args').
  replace (length (tail (attrs spec))) with (length (attrs spec) - 1)
    by (destruct (attrs spec); simpl; lia).
  by rewrite Ht.
Qed.

(** X2. Positional arguments beyond the named parameters leave no
    trace: two calls that agree on the keywords and on the positional
    arguments that fill named parameters record the same mapping. *)
Theorem surplus_positionals_are_not_recorded spec self args args' kwargs
    (h : heap) c fs :
  h !! self = Some (OInst c fs) →
  take (length (attrs spec) - 1) args = take (length (attrs spec) - 1) args' →
  ∃ cfg, records spec self args kwargs h cfg ∧
         records spec self args' kwargs h cfg.
Proof.
  intros Hs Ht. exists (recorded spec args kwargs).
  split; [by eapply store_config_records|].
  rewrite (recorded_take _ _ _ _ Ht). by eapply store_config_records.
Qed.

Lemma surplus_positionals_are_not_recorded_witness :
  ∃ cfg, records stack_spec 0 [VStr "conv"; VStr "pool"] ∅
           [OInst "Stack" ∅] cfg ∧
         records stack_spec 0 [] ∅ [OInst "Stack" ∅] cfg.
Proof.
  refine (surplus_positionals_are_not_recorded stack_spec 0
            [VStr "conv"; VStr "pool"] [] ∅ [OInst "Stack" ∅] "Stack" ∅ _ _);
    reflexivity.
Defined.

(** X3. The wrapper invents no keys: a name that is neither a
    parameter of the signature nor a keyword of the call is absent from
    the recorded mapping. *)
Theorem config_keys_come_from_the_call spec self args kwargs (h : heap)
    c fs k :
  h !! self = Some (OInst c fs) →
  k ∉ attrs spec →
  kwargs !! k = None →
  ∃ cfg, records spec self args kwargs h cfg ∧ cfg !! k = None.
Proof.
  intros Hs Hk Hkw. exists (recorded spec args kwargs).
  split; [by eapply store_config_records|].
  by apply recorded_lookup_outside.
Qed.

Lemma config_keys_come_from_the_call_witness :
  ∃ cfg, records stack_spec 0 [VStr "conv"] ∅ [OInst "Stack" ∅] cfg ∧
         cfg !! "layers" = None.
Proof.
  refine (config_keys_come_from_the_call stack_spec 0 [VStr "conv"] ∅
            [OInst "Stack" ∅] "Stack" ∅ "layers" _ _ _).
  - reflexivity.
  - by apply (bool_decide_unpack _); vm_compute.
  - reflexivity.
Defined.

Lemma recorded_is_bound spec self args kwargs b i p :
  wf_spec spec →
  bind_args spec (self :: args) kwargs = Ok b →
  attrs spec !! S i = Some p →
  recorded spec args kwargs !! p = b_named b !! p.
Proof.
  intros Hwf Hb Hp.
  destruct (bind_args_named _ _ _ _ (S i) p (proj1 Hwf) Hb Hp) as (v & Hv & ->).
  rewrite (recorded_lookup _ _ _ _ _ Hwf Hp).
  destruct (args !! i) as [w|] eqn:Hw.
  - destruct (bind_param_positional _ _ _ _ _ _ w Hv) as [-> ->]; done.
  - pose proof (bind_param_rest _ _ _ _ _ _ Hv) as Hr.
    cbn in Hr. specialize (Hr Hw). by destruct (kwargs !! p).
Qed.

(** X4. When the instance parameter has no default, a valid call
    records the binding the constructor receives except for the
    instance parameter and the surplus positional arguments: the
    recorded mapping is the named parameters without the instance
    parameter, together with the surplus keywords, with the same
    values and nothing else. *)
Theorem config_is_named_and_keyword_binding spec p0 self args kwargs
    (h : heap) c fs b :
  wf_spec spec →
  attrs spec !! 0 = Some p0 →
  default_of spec 0 = None →
  h !! self = Some (OInst c fs) →
  bind_args spec (VRef self :: args) kwargs = Ok b →
  records spec self args kwargs h (delete p0 (b_named b) ∪ b_varkw b).
Proof.
  intros Hwf Hp0 Hd0 Hs Hb.
  replace (delete p0 (b_named b) ∪ b_varkw b)
    with (recorded spec args kwargs); [by eapply store_config_records|].
  pose proof Hwf as [Hnd _].
  pose proof (bind_args_inv _ _ _ _ Hb) as (_ & _ & vs & _ & Hbeq).
  assert (Hkw : b_varkw b = surplus_kw spec kwargs) by (by rewrite Hbeq).
  apply map_eq. intros k. rewrite lookup_union, Hkw.
  destruct (decide (k ∈ attrs spec)) as [Hin|Hout].
  - assert (Hnone : surplus_kw spec kwargs !! k = None).
    { apply map_lookup_filter_None. right. intros v _ Hk. by apply Hk. }
    rewrite Hnone, (right_id_L None union).
    apply list_elem_of_lookup in Hin as [[|i] Hk].
    + assert (k = p0) as -> by congruence.
      rewrite lookup_delete_eq, (recorded_lookup_first _ _ _ _ Hwf Hp0).
      destruct (bind_args_named _ _ _ _ 0 p0 Hnd Hb Hp0) as (v & Hv & _).
      destruct (bind_param_positional _ _ _ _ _ _ (VRef self) Hv) as [_ ->];
        done.
    + rewrite lookup_delete_ne.
      * by eapply recorded_is_bound.
      * intros <-. by pose proof (NoDup_lookup _ _ _ _ Hnd Hp0 Hk).
  - assert (Hdel : delete p0 (b_named b) !! k = None).
    { destruct (decide (p0 = k)) as [->|Hne]; [by rewrite lookup_delete_eq|].
      rewrite lookup_delete_ne by done. rewrite Hbeq. cbn [b_named].
      by rewrite named_lookup_outside. }
    rewrite Hdel, (left_id_L None union), recorded_lookup_surplus by done.
    destruct (kwargs !! k) as [v|] eqn:Hv.
    + symmetry. by apply map_lookup_filter_Some.
    + symmetry. apply map_lookup_filter_None. by left.
Qed.

Lemma config_is_named_and_keyword_binding_witness :
  records flex_spec 0 [VInt 8] {["activation" := VStr "relu"]}
    [OInst "Flex" ∅]
    (delete "self" ({["self" := VRef 0; "units" := VInt 8]}
                    : gmap string val)
     ∪ {["activation" := VStr "relu"]}).
Proof.
  refine (config_is_named_and_keyword_binding flex_spec "self" 0 [VInt 8]
            {["activation" := VStr "relu"]} [OInst "Flex" ∅] "Flex" ∅
            {| b_named := {["self" := VRef 0; "units" := VInt 8]};
               b_varargs := [];
               b_varkw := {["activation" := VStr "relu"]} |} _ _ _ _ _).
  - solve_wf_spec.
  - reflexivity.
  - reflexivity.
  - reflexivity.
  - vm_compute. reflexivity.
Defined.

(** X5. Recording is idempotent on its own output: a call that passes
    a recorded mapping back as keyword arguments, and nothing else,
    records that same mapping again.  This holds for every signature,
    variadic ones included. *)
Theorem recording_again_changes_nothing spec self args kwargs (h : heap)
    c fs self2 (h2 : heap) c2 fs2 :
  h !! self = Some (OInst c fs) →
  h2 !! self2 = Some (OInst c2 fs2) →
  ∃ cfg, records spec self args kwargs h cfg ∧
         records spec self2 [] cfg h2 cfg.
Proof.
  intros Hs Hs2. exists (recorded spec args kwargs).
  split; [by eapply store_config_records|].
  rewrite <- (recorded_again spec args kwargs) at 2.
  by eapply store_config_records.
Qed.

Lemma recording_again_changes_nothing_witness :
  ∃ cfg, records net_spec 0 [VInt 32] {["name" := VStr "x"]}
           [OInst "Net" ∅] cfg ∧
         records net_spec 0 [] cfg [OInst "Net" ∅] cfg.
Proof.
  refine (recording_again_changes_nothing net_spec 0 [VInt 32]
            {["name" := VStr "x"]} [OInst "Net" ∅] "Net" ∅
            0 [OInst "Net" ∅] "Net" ∅ _ _); reflexivity.
Defined.

(** X6. The wrapper gives the instance a new dictionary at every call.
    A dictionary that [self.config] pointed to before (and that a
    caller may still hold through [get_config]) is left as it was. *)
Theorem wrapper_replaces_config spec self args kwargs (h : heap) c fs
    old d :
  h !! self = Some (OInst c fs) →
  fs !! "config" = Some (VRef old) →
  h !! old = Some (ODict d) →
  ∃ h' l,
    store_config spec (VRef self) args kwargs h = (Ok tt, h') ∧
    get_config (VRef self) h' = (Ok (VRef l), h') ∧
    l ≠ old ∧
    h !! l = None ∧
    h' !! l = Some (ODict (recorded spec args kwargs)) ∧
    h' !! old = Some (ODict d).
Proof.
  intros Hs Hc Hold.
  exists (with_config self (recorded spec args kwargs) h), (length h).
  pose proof (lookup_lt_Some _ _ _ Hold) as Hlt.
  split; [by eapply store_config_run|]. split.
  { unfold get_config, getattr. rewrite (with_config_self _ _ _ _ _ Hs).
    by rewrite lookup_insert_eq. }
  split; [lia|]. split; [by apply lookup_ge_None_2|].
  split; [by eapply with_config_dict|].
  rewrite with_config_old; [done| |done]. intros ->. congruence.
Qed.

Lemma wrapper_replaces_config_witness :
  ∃ h' l,
    store_config net_spec (VRef 0) [VInt 64] ∅
      [OInst "Net" {["config" := VRef 1]}; ODict {["filters" := VInt 32]}]
    = (Ok tt, h') ∧
    get_config (VRef 0) h' = (Ok (VRef l), h') ∧
    l ≠ 1 ∧
    [OInst "Net" {["config" := VRef 1]}; ODict {["filters" := VInt 32]}] !! l
    = None ∧
    h' !! l = Some (ODict (recorded net_spec [VInt 64] ∅)) ∧
    h' !! 1 = Some (ODict {["filters" := VInt 32]}).
Proof.
  refine (wrapper_replaces_config net_spec 0 [VInt 64] ∅
            [OInst "Net" {["config" := VRef 1]};
             ODict {["filters" := VInt 32]}]
            "Net" {["config" := VRef 1]} 1 {["filters" := VInt 32]} _ _ _);
    reflexivity.
Defined.

(** X7. The wrapper records before the call is validated: when the
    arguments do not fit the constructor's signature, the wrapper
    raises the [TypeError] of that call, the constructor body never
    runs, and the instance is nevertheless left with the mapping
    recorded from the ill-formed call. *)
Theorem rejected_call_still_records spec body self args kwargs (h : heap)
    c fs e :
  h !! self = Some (OInst c fs) →
  bind_args spec (VRef self :: args) kwargs = Raise e →
  ∃ h' l,
    wrapper spec (PyDef spec body) (VRef self) args kwargs h = (Raise e, h') ∧
    get_config (VRef self) h' = (Ok (VRef l), h') ∧
    h' !! l = Some (ODict (recorded spec args kwargs)).
Proof.
  intros Hs Hb.
  exists (with_config self (recorded spec args kwargs) h), (length h).
  split; [|split].
  - unfold wrapper.
    erewrite run_bind_ok by (by eapply store_config_run).
    cbn [call]. by rewrite Hb.
  - unfold get_config, getattr. rewrite (with_config_self _ _ _ _ _ Hs).
    by rewrite lookup_insert_eq.
  - by eapply with_config_dict.
Qed.

Lemma rejected_call_still_records_witness :
  ∃ h' l,
    wrapper net_spec net_init (VRef 0) [] {["depth" := VInt 2]}
      [OInst "Net" ∅]
    = (Raise (TypeError "missing required argument"), h') ∧
    get_config (VRef 0) h' = (Ok (VRef l), h') ∧
    h' !! l = Some (ODict (recorded net_spec [] {["depth" := VInt 2]})).
Proof.
  refine (rejected_call_still_records net_spec net_body 0 []
            {["depth" := VInt 2]} [OInst "Net" ∅] "Net" ∅
            (TypeError "missing required argument") _ _).
  - reflexivity.
  - vm_compute. reflexivity.
Defined.

Lemma setattr_not_instance self name v (h : heap) :
  (∀ l c fs, self = VRef l → h !! l ≠ Some (OInst c fs)) →
  setattr self name v h = (Raise (AttributeError name), h).
Proof.
  intros Hno. unfold setattr. destruct self as [| | | | | |l]; try done.
  destruct (h !! l) as [[d|c fs]|] eqn:Hl; try done.
  by destruct (Hno l c fs eq_refl).
Qed.

(** X8. On anything that is not an instance (a number, a string,
    [None], a list, a dictionary) the wrapper fails with
    [AttributeError] at [self.config = {}]: the original constructor
    is not called, and the only trace is the empty dictionary that was
    just created. *)
Theorem wrapper_needs_an_instance spec func self args kwargs (h : heap) :
  (∀ l c fs, self = VRef l → h !! l ≠ Some (OInst c fs)) →
  wrapper spec func self args kwargs h
  = (Raise (AttributeError "config"), h ++ [ODict ∅]).
Proof.
  intros Hno. unfold wrapper. apply run_bind_raise. unfold store_config.
  rewrite (run_bind_ok _ _ h (length h) (h ++ [ODict ∅])) by done.
  apply run_bind_raise, setattr_not_instance.
  intros l c fs -> Hl. apply lookup_app_Some in Hl as [Hl|[_ Hl]].
  - by eapply Hno.
  - destruct (l - length h) as [|n]; [done|]. by destruct n.
Qed.

Lemma wrapper_needs_an_instance_witness :
  wrapper net_spec net_init VNone [VInt 32] ∅ []
  = (Raise (AttributeError "config"), [] ++ [ODict ∅]).
Proof.
  refine (wrapper_needs_an_instance net_spec net_init VNone [VInt 32] ∅ [] _).
  intros l c fs Hl. discriminate Hl.
Defined.

(** X9. Decoration is sufficient for the guard of the base class: once
    the wrapper has recorded a call, [LoadableModel.__init__] on that
    instance does not raise the configuration error; it goes on to
    [keras.Model.__init__], whatever arguments it is given. *)
Theorem recorded_instance_passes_guard keras_Model_init spec self args
    kwargs (h : heap) c fs iargs ikwargs :
  h !! self = Some (OInst c fs) →
  ∃ h',
    store_config spec (VRef self) args kwargs h = (Ok tt, h') ∧
    LoadableModel_init keras_Model_init (VRef self) iargs ikwargs h'
    = match keras_Model_init (VRef self) iargs ikwargs h' with
      | (Ok _, h2) => (Ok VNone, h2)
      | (Raise e, h2) => (Raise e, h2)
      end.
Proof.
  intros Hs. exists (with_config self (recorded spec args kwargs) h).
  split; [by eapply store_config_run|].
  unfold LoadableModel_init, bind, hasattr.
  rewrite (with_config_self _ _ _ _ _ Hs).
  rewrite bool_decide_eq_true_2 by (rewrite lookup_insert_eq; eauto).
  cbn [negb]. by destruct (keras_Model_init _ _ _ _) as [[r|e] h2].
Qed.

Lemma recorded_instance_passes_guard_witness :
  ∃ h',
    store_config net_spec (VRef 0) [VInt 32] ∅ [OInst "Net" ∅] = (Ok tt, h') ∧
    LoadableModel_init keras_init_ok (VRef 0) [] ∅ h'
    = match keras_init_ok (VRef 0) [] ∅ h' with
      | (Ok _, h2) => (Ok VNone, h2)
      | (Raise e, h2) => (Raise e, h2)
      end.
Proof.
  refine (recorded_instance_passes_guard keras_init_ok net_spec 0 [VInt 32] ∅
            [OInst "Net" ∅] "Net" ∅ [] ∅ _).
  reflexivity.
Defined.

(** * Further properties of the base class *)

Lemma instantiate_inheriting name keras_Model_init args
    (kwargs : gmap string val) (h : heap) :
  instantiate (inheriting_class name keras_Model_init) args kwargs h
  = (Raise (match kwargs !! "self" with
            | Some _ => TypeError "got multiple values for argument"
            | None => config_error
            end),
     h ++ [OInst name ∅]).
Proof.
  unfold instantiate, inheriting_class, LoadableModel_init_def.
  cbn [cls_name cls_init].
  rewrite (run_bind_ok _ _ h (length h) (h ++ [OInst name ∅])) by done.
  cbn [call]. change base_init_sig with wrapper_sig.
  rewrite bind_wrapper_sig. destruct (kwargs !! "self") as [v|]; [done|].
  cbn [b_varargs b_varkw]. unfold param. cbn [b_named].
  rewrite lookup_singleton_eq.
  change (default VNone (Some (VRef (length h)))) with (VRef (length h)).
  rewrite run_bind. unfold LoadableModel_init, bind, hasattr.
  rewrite lookup_app_r, Nat.sub_diag by lia. cbn [lookup list_lookup].
  rewrite bool_decide_eq_false_2; [done|].
  rewrite lookup_empty. by intros [? ?].
Qed.

(** X10. A class that inherits [__init__] from [LoadableModel]
    unchanged and has no attribute [config] at class level (and so
    [LoadableModel] itself) cannot be instantiated.  Every call fails
    without reaching [keras.Model.__init__]: with the configuration
    error, or, when the call carries a keyword called [self], with the
    [TypeError] of an argument given twice.  What is left behind is
    only the attribute-less object that was being initialised. *)
Theorem inherited_constructor_always_fails name keras_Model_init args
    (kwargs : gmap string val) (h : heap) :
  instantiate (inheriting_class name keras_Model_init) args kwargs h
  = (Raise (match kwargs !! "self" with
            | Some _ => TypeError "got multiple values for argument"
            | None => RuntimeError "models that inherit from LoadableModel must decorate the constructor with @store_config_args"
            end),
     h ++ [OInst name ∅]).
Proof. apply instantiate_inheriting. Qed.

(** * Further properties of [load] *)

(** X11. Loading with a class that inherits [__init__] unchanged (and
    has no attribute [config] at class level) fails whatever mapping
    the file holds as configuration: with the configuration error, or
    with the [TypeError] of an argument given twice when the stored
    mapping has a key [self].  The metadata is read and the file
    closed, the class is called once, and [load_weights] is never
    called. *)
Theorem load_needs_a_decorated_class utf8_decode json_loads
    keras_load_weights keras_Model_init name path by_name (w : world)
    a config kwargs :
  w_disk w !! path = Some (Container a) →
  parse_config utf8_decode json_loads a (w_heap w) = Ok config →
  unpack_mapping config (w_heap w) = (Ok kwargs, w_heap w) →
  load utf8_decode json_loads keras_load_weights
    (inheriting_class name keras_Model_init) path by_name w
  = (Raise (match kwargs !! "self" with
            | Some _ => TypeError "got multiple values for argument"
            | None => config_error
            end),
     advance w (w_heap w ++ [OInst name ∅])
       (file_phase path ++ [EvConstruct name config])).
Proof.
  intros Hd Hp Hu. rewrite load_run, file_phase_run, Hd, Hp.
  cbn [advance w_heap]. unfold from_config, construct_log.
  rewrite (run_bind_ok _ _ _ _ _ Hu), instantiate_inheriting, Hu.
  unfold advance. cbn [w_disk w_heap w_open w_log cls_name inheriting_class].
  by rewrite <- app_assoc.
Qed.

Lemma load_needs_a_decorated_class_witness :
  load demo_decode demo_parse demo_load_weights
    (inheriting_class "Plain" keras_init_ok) "model.h5" false demo_world
  = (Raise config_error,
     advance demo_world ([] ++ [OInst "Plain" ∅])
       (file_phase "model.h5"
        ++ [EvConstruct "Plain" (VDict [("filters", VInt 32)])])).
Proof.
  refine (load_needs_a_decorated_class demo_decode demo_parse
            demo_load_weights keras_init_ok "Plain" "model.h5" false
            demo_world {["model_config" := []]}
            (VDict [("filters", VInt 32)]) {["filters" := VInt 32]}
            _ _ _).
  - vm_compute. reflexivity.
  - vm_compute. reflexivity.
  - vm_compute. reflexivity.
Defined.

Lemma unpack_not_mapping config (h : heap) :
  not_mapping config →
  unpack_mapping config h
  = (Raise (TypeError "argument after ** must be a mapping"), h).
Proof. by destruct config. Qed.

(** X12. When the configuration found in the file is not a mapping (a
    JSON array, string, number, boolean or null) [load] raises
    [TypeError] at the construction step, before the class is called:
    the file has been read and closed, no object is created, and
    neither the constructor nor [load_weights] is called. *)
Theorem load_rejects_non_mapping_config utf8_decode json_loads
    keras_load_weights cls path by_name (w : world) a config :
  w_disk w !! path = Some (Container a) →
  parse_config utf8_decode json_loads a (w_heap w) = Ok config →
  not_mapping config →
  load utf8_decode json_loads keras_load_weights cls path by_name w
  = (Raise (TypeError "argument after ** must be a mapping"),
     advance w (w_heap w) (file_phase path)).
Proof.
  intros Hd Hp Hn. rewrite load_run, file_phase_run, Hd, Hp.
  cbn [advance w_heap]. unfold from_config, construct_log.
  pose proof (unpack_not_mapping config (w_heap w) Hn) as Hu.
  rewrite (run_bind_raise _ _ _ _ _ Hu), Hu.
  unfold advance. cbn [w_disk w_heap w_open w_log].
  by rewrite app_nil_r.
Qed.

Lemma load_rejects_non_mapping_config_witness :
  load demo_decode
    (λ _, Ok (VDict [("class_name", VStr "Sequential");
                     ("config", VList [VStr "dense"])]))
    demo_load_weights net_cls "model.h5" false demo_world
  = (Raise (TypeError "argument after ** must be a mapping"),
     advance demo_world [] (file_phase "model.h5")).
Proof.
  refine (load_rejects_non_mapping_config demo_decode
            (λ _, Ok (VDict [("class_name", VStr "Sequential");
                             ("config", VList [VStr "dense"])]))
            demo_load_weights net_cls "model.h5" false demo_world
            {["model_config" := []]} (VList [VStr "dense"]) _ _ _).
  - vm_compute. reflexivity.
  - vm_compute. reflexivity.
  - exact I.
Defined.

Lemma kwargs_subseteq_recorded spec args (kwargs : gmap string val) :
  kwargs ⊆ recorded spec args kwargs.
Proof.
  apply map_subseteq_spec. intros k v Hk.
  unfold recorded. by rewrite update_all_items_lookup, Hk.
Qed.

(** X13. [load] with a decorated class returns an instance that
    carries the configuration of the file: when the constructor accepts
    the stored mapping, and its body and [load_weights] leave recorded
    configurations alone, the [config] of the returned instance, in the
    heap [load] ends with, holds every entry of the stored mapping,
    completed by the defaults of the parameters the file does not
    mention. *)
Theorem loaded_instance_carries_stored_config utf8_decode json_loads
    keras_load_weights name spec body path by_name (w : world)
    a config kwargs m h1 r h2 :
  w_disk w !! path = Some (Container a) →
  parse_config utf8_decode json_loads a (w_heap w) = Ok config →
  unpack_mapping config (w_heap w) = (Ok kwargs, w_heap w) →
  instantiate (decorated_class name spec body) [] kwargs (w_heap w)
  = (Ok (VRef m), h1) →
  keeps_config body →
  keras_load_weights (VRef m) path by_name h1 = (Ok r, h2) →
  weights_keep_config keras_load_weights →
  load utf8_decode json_loads keras_load_weights
    (decorated_class name spec body) path by_name w
  = (Ok (VRef m),
     advance w h2 (file_phase path ++ [EvConstruct name config;
                                       EvLoadWeights (VRef m) path by_name])) ∧
  inst_of h2 m name (recorded spec [] kwargs) ∧
  kwargs ⊆ recorded spec [] kwargs.
Proof.
  intros Hd Hp Hu Hinst Hkeep Hw Hwk. split; [|split].
  - rewrite load_run, file_phase_run, Hd, Hp. cbn [advance w_heap].
    unfold from_config. rewrite (run_bind_ok _ _ _ _ _ Hu), Hinst, Hw.
    unfold advance.
    cbn [w_disk w_heap w_open w_log cls_name decorated_class].
    by rewrite <- app_assoc.
  - eapply Hwk; [exact Hw|].
    rewrite instantiate_decorated in Hinst.
    destruct (kwargs !! "self"); [done|]. cbv zeta in Hinst.
    destruct (bind_args spec _ kwargs) as [b|]; [|done].
    destruct (body b _) as [[v|] hb] eqn:Hbody; [|done].
    assert (m = length (w_heap w) ∧ hb = h1) as [-> ->].
    { destruct v; try done. by injection Hinst as -> ->. }
    eapply Hkeep; [exact Hbody|].
    eapply inst_of_with_config.
    by rewrite lookup_app_r, Nat.sub_diag by lia.
  - apply kwargs_subseteq_recorded.
Qed.

Lemma demo_load_weights_keep_config : weights_keep_config demo_load_weights.
Proof. intros model path by_name h h' v self cname cfg [= _ <-]. done. Qed.

Lemma loaded_instance_carries_stored_config_witness :
  load demo_decode demo_parse demo_load_weights
    (decorated_class "Net" net_spec net_body) "model.h5" true demo_world
  = (Ok (VRef 0),
     advance demo_world
       [OInst "Net" {["config" := VRef 1]};
        ODict {["filters" := VInt 32; "depth" := VInt 4;
                "name" := VStr "net"]}]
       (file_phase "model.h5"
        ++ [EvConstruct "Net" (VDict [("filters", VInt 32)]);
            EvLoadWeights (VRef 0) "model.h5" true])) ∧
  inst_of
    [OInst "Net" {["config" := VRef 1]};
     ODict {["filters" := VInt 32; "depth" := VInt 4; "name" := VStr "net"]}]
    0 "Net" (recorded net_spec [] {["filters" := VInt 32]}) ∧
  ({["filters" := VInt 32]} : gmap string val)
  ⊆ recorded net_spec [] {["filters" := VInt 32]}.
Proof.
  refine (loaded_instance_carries_stored_config demo_decode demo_parse
            demo_load_weights "Net" net_spec net_body "model.h5" true
            demo_world {["model_config" := []]}
            (VDict [("filters", VInt 32)]) {["filters" := VInt 32]} 0
            [OInst "Net" {["config" := VRef 1]};
             ODict {["filters" := VInt 32; "depth" := VInt 4;
                     "name" := VStr "net"]}]
            VNone
            [OInst "Net" {["config" := VRef 1]};
             ODict {["filters" := VInt 32; "depth" := VInt 4;
                     "name" := VStr "net"]}]
            _ _ _ _ net_body_keeps_config _ demo_load_weights_keep_config).
  - vm_compute. reflexivity.
  - vm_compute. reflexivity.
  - vm_compute. reflexivity.
  - vm_compute. reflexivity.
  - reflexivity.
Defined.

(** X14. [load] never leaves the container open: on every way out,
    with an instance or with an exception from any step, the set of
    open files is what it was before the call, also when other files
    were open or the same path was already open. *)
Theorem load_never_leaves_file_open utf8_decode json_loads
    keras_load_weights cls path by_name (w : world) :
  w_open (load utf8_decode json_loads keras_load_weights cls path by_name
            w).2
  = w_open w.
Proof.
  exact (proj1 (load_closes_file utf8_decode json_loads keras_load_weights
                  cls path by_name w)).
Qed.
